(** * Users and Profile screens: roster filter and guarded mutations

    A shallow embedding of [src/pages/Users.tsx] and of the [Profile]
    component that follows it in the same source file.

    - JavaScript strings are [string]s; one character stands for one code
      unit.  [String.prototype.toLowerCase] is a variable of the section
      that needs it, [String.prototype.includes] is written out.
    - [email] and [displayName] arrive from [doc.data()] through an
      unchecked cast, so they are dynamic values ([jsval]); a method call on
      a value that has no such method throws [TypeError].
    - A handler is a computation over the component's state that also logs
      its calls to the collaborators (backend, notifications).  An [async]
      handler runs up to its [await] and hands back the continuation that
      runs when the promise settles. *)

From Stdlib Require Import List String Ascii Bool Arith Lia.
Import ListNotations.
Open Scope string_scope.
Open Scope list_scope.

(** ** Strings *)

(** [startsWith s t]: [t] is a prefix of [s]. *)
Fixpoint startsWith (s t : string) {struct t} : bool :=
  match t, s with
  | EmptyString, _ => true
  | String _ _, EmptyString => false
  | String c t', String d s' => Ascii.eqb c d && startsWith s' t'
  end.

(** [s.includes(t)]: [t] occurs in [s] at some position. *)
Fixpoint includes (s t : string) : bool :=
  startsWith s t ||
  match s with
  | EmptyString => false
  | String _ s' => includes s' t
  end.

(** Lower-casing of the ASCII letters, the instance used to run examples. *)
Definition asciiLower (c : ascii) : ascii :=
  let n := nat_of_ascii c in
  if (Nat.leb 65 n && Nat.leb n 90)%bool then ascii_of_nat (n + 32) else c.

Fixpoint asciiToLowerCase (s : string) : string :=
  match s with
  | EmptyString => EmptyString
  | String c s' => String (asciiLower c) (asciiToLowerCase s')
  end.

(** ** Completions: a JavaScript evaluation returns or throws *)

Inductive exn := TypeError.

Inductive completion (A : Type) : Type :=
| Normal (a : A)
| Throw (e : exn).
Arguments Normal {A} a.
Arguments Throw {A} e.

Definition cbind {A B} (c : completion A) (k : A -> completion B) : completion B :=
  match c with
  | Normal a => k a
  | Throw e => Throw e
  end.

Notation "'try!' x <- c ; k" := (cbind c (fun x => k))
  (at level 10, x name, c at level 100, k at level 200).

(** ** Data model *)

(** What a field read from a document may hold at run time. [JOther] is any
    value that is neither nullish nor a string (a number, a boolean, a map):
    it has no [toLowerCase] method. *)
Inductive jsval :=
| JUndefined
| JNull
| JString (s : string)
| JOther.

Record UserData := mkUserData {
  uid : string;
  email : jsval;
  displayName : jsval;
  emailVerified : bool;
  createdAt : nat
}.

(** A document of the snapshot: [doc.id] and the fields of [doc.data()].
    [d_uid] is a [uid] property of the data itself, when it has one. *)
Record Doc := mkDoc {
  d_id : string;
  d_uid : option string;
  d_email : jsval;
  d_displayName : jsval;
  d_emailVerified : bool;
  d_createdAt : nat
}.

(** [{ uid: doc.id, ...doc.data() }]: the spread comes second, so a [uid]
    of the data wins over [doc.id]. *)
Definition docToUser (d : Doc) : UserData :=
  {| uid := match d_uid d with Some u => u | None => d_id d end;
     email := d_email d;
     displayName := d_displayName d;
     emailVerified := d_emailVerified d;
     createdAt := d_createdAt d |}.

(** ** The roster filter *)

(** The value of a callback: [undefined] or a boolean. *)
Definition truthy (v : option bool) : bool :=
  match v with
  | Some b => b
  | None => false
  end.

(** [Array.prototype.filter]: the callback runs on every element in order,
    an exception of the callback ends the loop, the kept elements go to a
    new array. *)
Fixpoint array_filter {A} (cb : A -> completion (option bool)) (l : list A)
  : completion (list A) :=
  match l with
  | [] => Normal []
  | x :: rest =>
      try! v <- cb x;
      try! kept <- array_filter cb rest;
      Normal (if truthy v then x :: kept else kept)
  end.

(** The callback returns a truthy value on [x]. *)
Definition keeps {A} (cb : A -> completion (option bool)) (x : A) : Prop :=
  exists v, cb x = Normal v /\ truthy v = true.

Section Filter.

Variable toLowerCase : string -> string.

(** [x?.toLowerCase().includes(searchQuery.toLowerCase())]: on a nullish
    [x] the whole chain is [undefined] and the argument is not evaluated. *)
Definition lowerIncludes (x : jsval) (searchQuery : string)
  : completion (option bool) :=
  match x with
  | JUndefined | JNull => Normal None
  | JString s => Normal (Some (includes (toLowerCase s) (toLowerCase searchQuery)))
  | JOther => Throw TypeError
  end.

(** The callback of [users.filter]: [a || b] is [a] when [a] is truthy,
    and [b] is not evaluated then. *)
Definition matchesQuery (searchQuery : string) (user : UserData)
  : completion (option bool) :=
  try! a <- lowerIncludes (email user) searchQuery;
  if truthy a then Normal a else lowerIncludes (displayName user) searchQuery.

Definition filteredUsers (users : list UserData) (searchQuery : string)
  : completion (list UserData) :=
  array_filter (matchesQuery searchQuery) users.

(** *** The filter in the words of the specification *)

(** [t] occurs in [s]. *)
Definition contains (s t : string) : Prop :=
  exists pre post, s = (pre ++ t ++ post)%string.

(** The field is a string that contains [t] when case is ignored. *)
Definition ciContains (x : jsval) (t : string) : Prop :=
  exists s, x = JString s /\ contains (toLowerCase s) (toLowerCase t).

Definition recordMatches (t : string) (u : UserData) : Prop :=
  ciContains (email u) t \/ ciContains (displayName u) t.

(** The field can be searched: it is absent or it is a string. *)
Definition searchable (x : jsval) : Prop :=
  match x with
  | JOther => False
  | _ => True
  end.

Definition wellShaped (u : UserData) : Prop :=
  searchable (email u) /\ searchable (displayName u).

Definition isString (x : jsval) : bool :=
  match x with
  | JString _ => true
  | _ => false
  end.

Definition hasStringField (u : UserData) : bool :=
  isString (email u) || isString (displayName u).

End Filter.

(** Sample records: complete, without a display name, without both. *)
Definition alice : UserData :=
  {| uid := "u1"; email := JString "Alice@Example.com";
     displayName := JString "Alice"; emailVerified := true; createdAt := 3 |}.

Definition bob : UserData :=
  {| uid := "u2"; email := JString "bob@example.com";
     displayName := JUndefined; emailVerified := false; createdAt := 2 |}.

Definition ghost : UserData :=
  {| uid := "u3"; email := JUndefined;
     displayName := JUndefined; emailVerified := false; createdAt := 1 |}.

(** ** Arrays as objects

    A JavaScript array is an object on the heap and a variable holds a
    reference to it.  [filter] reads the receiver and allocates the array it
    returns; the callback of [filteredUsers] only reads its argument. *)

Definition ref := nat.
Definition heap := list (list UserData).

Definition heap_filter (cb : UserData -> completion (option bool)) (r : ref) (h : heap)
  : completion (ref * heap) :=
  match nth_error h r with
  | None => Throw TypeError
  | Some a =>
      try! kept <- array_filter cb a;
      Normal (List.length h, h ++ [kept])
  end.

(** [const filteredUsers = users.filter(...)] with [users] held by
    reference. *)
Definition filteredUsersRef (toLowerCase : string -> string)
  (users : ref) (searchQuery : string) (h : heap) : completion (ref * heap) :=
  heap_filter (matchesQuery toLowerCase searchQuery) users h.

(** ** Handlers: state, calls to the collaborators, await *)

(** The calls a handler makes to what the components import. *)
Inductive effect :=
| Subscribe                     (* onSnapshot(query(collection(db,'users'), orderBy('createdAt','desc')), next) *)
| Unsubscribe                   (* the function onSnapshot returned *)
| DeleteUser (uid : string)     (* deleteUser(uid) *)
| UpdateUserProfile (displayName : string)
| UpdateUserPassword (currentPassword newPassword : string)
| ShowSuccessNotification (msg : string)
| ShowErrorNotification (msg : string)
| PreventDefault.               (* e.preventDefault() *)

(** A computation over the state [S] of a component that logs its calls. *)
Definition M (S A : Type) : Type := S -> A * S * list effect.

Definition ret {S A} (a : A) : M S A := fun s => (a, s, []).

Definition bind {S A B} (m : M S A) (k : A -> M S B) : M S B :=
  fun s =>
    let '(a, s1, e1) := m s in
    let '(b, s2, e2) := k a s1 in
    (b, s2, e1 ++ e2).

Definition get {S} : M S S := fun s => (s, s, []).
Definition modify {S} (f : S -> S) : M S unit := fun s => (tt, f s, []).
Definition call {S} (e : effect) : M S unit := fun s => (tt, s, [e]).

Notation "x <- m ;; k" := (bind m (fun x => k))
  (at level 61, m at next level, right associativity).
Notation "m ;; k" := (bind m (fun _ => k))
  (at level 61, right associativity).

Definition stateOf {S A} (r : A * S * list effect) : S := snd (fst r).
Definition valueOf {S A} (r : A * S * list effect) : A := fst (fst r).
Definition callsOf {S A} (r : A * S * list effect) : list effect := snd r.

(** How the promise of a backend call settles. *)
Inductive settled := Fulfilled | Rejected.

(** An [async] function runs up to its first [await]: it has returned, or
    it waits for a promise with the rest of its body as continuation. *)
Inductive async (S : Type) : Type :=
| Returned
| Awaiting (k : settled -> M S unit).
Arguments Returned {S}.
Arguments Awaiting {S} k.

(** One whole attempt: the handler and, when it awaits, its continuation.
    Other handlers may run while the promise is pending: [between] is what
    they do to the state. *)
Definition attempt {S} (h : M S (async S)) (o : settled) (between : S -> S) (s : S)
  : S * list effect :=
  let '(a, s1, e1) := h s in
  match a with
  | Returned => (s1, e1)
  | Awaiting k => let '(_, s2, e2) := k o (between s1) in (s2, e1 ++ e2)
  end.

Definition isBackendCall (e : effect) : bool :=
  match e with
  | DeleteUser _ | UpdateUserProfile _ | UpdateUserPassword _ _ => true
  | _ => false
  end.

Definition isSuccessNotification (e : effect) : bool :=
  match e with
  | ShowSuccessNotification _ => true
  | _ => false
  end.

Definition isErrorNotification (e : effect) : bool :=
  match e with
  | ShowErrorNotification _ => true
  | _ => false
  end.

Definition isSubscribe (e : effect) : bool :=
  match e with
  | Subscribe => true
  | _ => false
  end.

Definition count (p : effect -> bool) (l : list effect) : nat :=
  List.length (filter p l).

(** ** The Users component *)

Module Users.

Record State := mkState {
  users : list UserData;
  loading : bool;
  showPasswordPrompt : bool;
  selectedUser : option UserData;
  searchQuery : string
}.

(** The [useState] initial values. *)
Definition initialState : State :=
  {| users := []; loading := true; showPasswordPrompt := false;
     selectedUser := None; searchQuery := "" |}.

Definition setUsers (v : list UserData) (s : State) : State :=
  {| users := v; loading := loading s;
     showPasswordPrompt := showPasswordPrompt s;
     selectedUser := selectedUser s; searchQuery := searchQuery s |}.

Definition setLoading (v : bool) (s : State) : State :=
  {| users := users s; loading := v;
     showPasswordPrompt := showPasswordPrompt s;
     selectedUser := selectedUser s; searchQuery := searchQuery s |}.

Definition setShowPasswordPrompt (v : bool) (s : State) : State :=
  {| users := users s; loading := loading s;
     showPasswordPrompt := v;
     selectedUser := selectedUser s; searchQuery := searchQuery s |}.

Definition setSelectedUser (v : option UserData) (s : State) : State :=
  {| users := users s; loading := loading s;
     showPasswordPrompt := showPasswordPrompt s;
     selectedUser := v; searchQuery := searchQuery s |}.

Definition setSearchQuery (v : string) (s : State) : State :=
  {| users := users s; loading := loading s;
     showPasswordPrompt := showPasswordPrompt s;
     selectedUser := selectedUser s; searchQuery := v |}.

(** The [next] callback given to [onSnapshot]. *)
Definition onSnapshotNext (docs : list Doc) : M State unit :=
  let usersData := map docToUser docs in
  modify (setUsers usersData) ;;
  modify (setLoading false).

Definition handleDeleteClick (user : UserData) : M State unit :=
  modify (setSelectedUser (Some user)) ;;
  modify (setShowPasswordPrompt true).

(** The [finally] block of [handleDelete], also its early return. *)
Definition closePrompt : M State unit :=
  modify (setShowPasswordPrompt false) ;;
  modify (setSelectedUser None).

(** After [await deleteUser(...)]: the rest of [try], or [catch], then
    [finally]. *)
Definition afterDeleteUser (o : settled) : M State unit :=
  match o with
  | Fulfilled => call (ShowSuccessNotification "Пользователь успешно удален")
  | Rejected => call (ShowErrorNotification "Ошибка при удалении пользователя")
  end ;;
  closePrompt.

(** [if (!isAuthenticated || !selectedUser)] is every case but the
    first. *)
Definition handleDelete (isAuthenticated : bool) : M State (async State) :=
  s <- get ;;
  match isAuthenticated, selectedUser s with
  | true, Some target =>
      call (DeleteUser (uid target)) ;;
      ret (Awaiting afterDeleteUser)
  | _, _ =>
      closePrompt ;;
      ret Returned
  end.

(** The props given to [PasswordPrompt]. *)
Definition promptOnClose : M State unit := closePrompt.
Definition promptOnSuccess : M State (async State) := handleDelete true.

(** *** What the component renders *)

Inductive body :=
| Spinner
| EmptyState (msg : string)
| Roster (rows : list UserData).

Record view := mkView {
  v_body : body;
  v_prompt : bool     (* PasswordPrompt is mounted *)
}.

Definition nonEmpty (s : string) : bool :=
  match s with
  | EmptyString => false
  | String _ _ => true
  end.

Definition render (toLowerCase : string -> string) (s : State) : completion view :=
  try! rows <- filteredUsers toLowerCase (users s) (searchQuery s);
  Normal
    {| v_body :=
         if loading s then Spinner
         else match rows with
              | [] => EmptyState (if nonEmpty (searchQuery s)
                                  then "По вашему запросу ничего не найдено"
                                  else "Список пользователей пуст")
              | _ :: _ => Roster rows
              end;
       v_prompt := showPasswordPrompt s |}.

(** The "no users" block is on screen. *)
Definition showsEmptyState (v : completion view) : Prop :=
  exists msg p, v = Normal {| v_body := EmptyState msg; v_prompt := p |}.

(** *** The component in time *)

(** The state, the backend calls that have not settled yet (oldest
    first), every call made so far, and whether the snapshot listener is
    attached. *)
Record World := mkWorld {
  state : State;
  pending : list (settled -> M State unit);
  log : list effect;
  listening : bool
}.

Definition initialWorld : World :=
  {| state := initialState; pending := []; log := []; listening := false |}.

Inductive event :=
| Mount                          (* the effect with [] dependencies runs *)
| Unmount                        (* its cleanup runs *)
| FeedNext (docs : list Doc)     (* the collection pushes a snapshot *)
| FeedError                      (* the subscription fails *)
| ChangeSearch (q : string)
| ClickDelete (user : UserData)
| PromptClose
| PromptSuccess
| Settle (i : nat) (o : settled). (* the i-th pending call settles *)

Definition exec (m : M State unit) (w : World) : World :=
  let '(_, s, e) := m (state w) in
  {| state := s; pending := pending w; log := log w ++ e;
     listening := listening w |}.

Definition execAsync (m : M State (async State)) (w : World) : World :=
  let '(a, s, e) := m (state w) in
  {| state := s;
     pending := match a with
                | Returned => pending w
                | Awaiting k => pending w ++ [k]
                end;
     log := log w ++ e;
     listening := listening w |}.

Fixpoint removeNth {A} (i : nat) (l : list A) : list A :=
  match l, i with
  | [], _ => []
  | _ :: r, 0 => r
  | x :: r, S j => x :: removeNth j r
  end.

(** [onSnapshot] got a [next] callback and no error callback: when the
    subscription fails the listener ends and nothing of the component
    runs. *)
Definition step (w : World) (ev : event) : World :=
  match ev with
  | Mount =>
      {| state := state w; pending := pending w;
         log := log w ++ [Subscribe]; listening := true |}
  | Unmount =>
      {| state := state w; pending := pending w;
         log := log w ++ [Unsubscribe]; listening := false |}
  | FeedNext docs =>
      if listening w then exec (onSnapshotNext docs) w else w
  | FeedError =>
      {| state := state w; pending := pending w;
         log := log w; listening := false |}
  | ChangeSearch q => exec (modify (setSearchQuery q)) w
  | ClickDelete user => exec (handleDeleteClick user) w
  | PromptClose => exec promptOnClose w
  | PromptSuccess => execAsync promptOnSuccess w
  | Settle i o =>
      match nth_error (pending w) i with
      | None => w
      | Some k =>
          exec (k o)
            {| state := state w; pending := removeNth i (pending w);
               log := log w; listening := listening w |}
      end
  end.

Definition run (w : World) (evs : list event) : World :=
  fold_left step evs w.

Inductive reachable : World -> Prop :=
| reach_init : reachable initialWorld
| reach_step w ev : reachable w -> reachable (step w ev).

(** *** The controller of the specification, read off the component *)

Inductive controller := Idle | AwaitingConfirmation | Committing.

Definition isSome {A} (o : option A) : bool :=
  match o with
  | Some _ => true
  | None => false
  end.

(** Idle: no prompt, no target, no call in flight. *)
Definition controllerOf (w : World) : controller :=
  match pending w with
  | _ :: _ => Committing
  | [] =>
      if showPasswordPrompt (state w) || isSome (selectedUser (state w))
      then AwaitingConfirmation
      else Idle
  end.

Definition idleState (s : State) : Prop :=
  showPasswordPrompt s = false /\ selectedUser s = None.

(** Every pending continuation is the one [handleDelete] awaits with. *)
Definition pendingDeletes (w : World) : Prop :=
  Forall (fun k => k = afterDeleteUser) (pending w).

End Users.

(** ** The Profile component *)

Module Profile.

Record State := mkState {
  displayName : string;
  currentPassword : string;
  newPassword : string;
  confirmPassword : string;
  loading : bool
}.

Definition setCurrentPassword (v : string) (s : State) : State :=
  {| displayName := displayName s; currentPassword := v;
     newPassword := newPassword s; confirmPassword := confirmPassword s;
     loading := loading s |}.

Definition setNewPassword (v : string) (s : State) : State :=
  {| displayName := displayName s; currentPassword := currentPassword s;
     newPassword := v; confirmPassword := confirmPassword s;
     loading := loading s |}.

Definition setConfirmPassword (v : string) (s : State) : State :=
  {| displayName := displayName s; currentPassword := currentPassword s;
     newPassword := newPassword s; confirmPassword := v;
     loading := loading s |}.

Definition setLoading (v : bool) (s : State) : State :=
  {| displayName := displayName s; currentPassword := currentPassword s;
     newPassword := newPassword s; confirmPassword := confirmPassword s;
     loading := v |}.

Definition afterUpdateUserProfile (o : settled) : M State unit :=
  match o with
  | Fulfilled => call (ShowSuccessNotification "Профиль успешно обновлен")
  | Rejected => call (ShowErrorNotification "Ошибка при обновлении профиля")
  end ;;
  modify (setLoading false).

Definition handleUpdateProfile : M State (async State) :=
  call PreventDefault ;;
  s <- get ;;
  modify (setLoading true) ;;
  call (UpdateUserProfile (displayName s)) ;;
  ret (Awaiting afterUpdateUserProfile).

Definition afterUpdateUserPassword (o : settled) : M State unit :=
  match o with
  | Fulfilled =>
      call (ShowSuccessNotification "Пароль успешно изменен") ;;
      modify (setCurrentPassword "") ;;
      modify (setNewPassword "") ;;
      modify (setConfirmPassword "")
  | Rejected => call (ShowErrorNotification "Ошибка при изменении пароля")
  end ;;
  modify (setLoading false).

(** [newPassword !== confirmPassword] on strings compares the code
    units. *)
Definition handleUpdatePassword : M State (async State) :=
  call PreventDefault ;;
  s <- get ;;
  if negb (String.eqb (newPassword s) (confirmPassword s)) then
    call (ShowErrorNotification "Пароли не совпадают") ;;
    ret Returned
  else
    modify (setLoading true) ;;
    call (UpdateUserPassword (currentPassword s) (newPassword s)) ;;
    ret (Awaiting afterUpdateUserPassword).

(** Idle: the form is not submitting. *)
Definition idleState (s : State) : Prop := loading s = false.

(** *** The form *)

(** The signed-in user of [useAuth()]; both fields may be [null]. *)
Record User := mkUser {
  u_email : option string;
  u_displayName : option string
}.

(** [currentUser?.field || '']: a missing user, a [null] field and an empty
    string all give the empty string. *)
Definition orEmpty (currentUser : option User) (field : User -> option string)
  : string :=
  match currentUser with
  | Some u => match field u with
              | Some v => v
              | None => ""
              end
  | None => ""
  end.

(** The [useState] initial values. *)
Definition initialState (currentUser : option User) : State :=
  {| displayName := orEmpty currentUser u_displayName;
     currentPassword := ""; newPassword := ""; confirmPassword := "";
     loading := false |}.

Definition setDisplayName (v : string) (s : State) : State :=
  {| displayName := v; currentPassword := currentPassword s;
     newPassword := newPassword s; confirmPassword := confirmPassword s;
     loading := loading s |}.

(** What the two forms show: the disabled email input, the name input, the
    labels of the two submit buttons and their [disabled] attribute. *)
Record view := mkView {
  v_email : string;
  v_displayName : string;
  v_saveLabel : string;
  v_passwordLabel : string;
  v_submitDisabled : bool
}.

Definition render (currentUser : option User) (s : State) : view :=
  {| v_email := orEmpty currentUser u_email;
     v_displayName := displayName s;
     v_saveLabel := if loading s then "Сохранение..." else "Сохранить изменения";
     v_passwordLabel := if loading s then "Изменение..." else "Изменить пароль";
     v_submitDisabled := loading s |}.

Definition isEmpty (s : string) : bool :=
  match s with
  | EmptyString => true
  | String _ _ => false
  end.

(** The three password inputs are [required]: the browser does not submit
    the form while one of them is empty. *)
Definition passwordFormValid (s : State) : bool :=
  negb (isEmpty (currentPassword s)) &&
  negb (isEmpty (newPassword s)) &&
  negb (isEmpty (confirmPassword s)).

(** *** The component in time *)

Record World := mkWorld {
  state : State;
  pending : list (settled -> M State unit);
  log : list effect
}.

Definition initialWorld (currentUser : option User) : World :=
  {| state := initialState currentUser; pending := []; log := [] |}.

Inductive event :=
| ChangeDisplayName (v : string)
| ChangeCurrentPassword (v : string)
| ChangeNewPassword (v : string)
| ChangeConfirmPassword (v : string)
| SubmitProfile                   (* the first form is submitted *)
| SubmitPassword                  (* the second form is submitted *)
| Settle (i : nat) (o : settled). (* the i-th pending call settles *)

Definition exec (m : M State unit) (w : World) : World :=
  let '(_, s, e) := m (state w) in
  {| state := s; pending := pending w; log := log w ++ e |}.

Definition execAsync (m : M State (async State)) (w : World) : World :=
  let '(a, s, e) := m (state w) in
  {| state := s;
     pending := match a with
                | Returned => pending w
                | Awaiting k => pending w ++ [k]
                end;
     log := log w ++ e |}.

(** A form is submitted through its submit button, which is disabled while
    [loading]; the password form also needs its required inputs. *)
Definition step (w : World) (ev : event) : World :=
  match ev with
  | ChangeDisplayName v => exec (modify (setDisplayName v)) w
  | ChangeCurrentPassword v => exec (modify (setCurrentPassword v)) w
  | ChangeNewPassword v => exec (modify (setNewPassword v)) w
  | ChangeConfirmPassword v => exec (modify (setConfirmPassword v)) w
  | SubmitProfile =>
      if loading (state w) then w else execAsync handleUpdateProfile w
  | SubmitPassword =>
      if loading (state w) || negb (passwordFormValid (state w)) then w
      else execAsync handleUpdatePassword w
  | Settle i o =>
      match nth_error (pending w) i with
      | None => w
      | Some k =>
          exec (k o)
            {| state := state w; pending := Users.removeNth i (pending w);
               log := log w |}
      end
  end.

Definition run (w : World) (evs : list event) : World :=
  fold_left step evs w.

Inductive reachable (currentUser : option User) : World -> Prop :=
| reach_init : reachable currentUser (initialWorld currentUser)
| reach_step w ev :
    reachable currentUser w -> reachable currentUser (step w ev).

(** A call is in flight exactly while [loading], and then only one. *)
Definition serialized (w : World) : Prop :=
  (loading (state w) = false /\ pending w = []) \/
  (loading (state w) = true /\
   (pending w = [afterUpdateUserProfile] \/
    pending w = [afterUpdateUserPassword])).

End Profile.

(** ** Vocabulary of the further properties *)

(** The truth value of the filter callback on a record, when it returns. *)
Definition matchesb (toLowerCase : string -> string) (t : string) (u : UserData)
  : bool :=
  match matchesQuery toLowerCase t u with
  | Normal v => truthy v
  | Throw _ => false
  end.

(** The callback throws on the record: a field that is looked at holds a
    value without [toLowerCase]. *)
Definition throwsOn (toLowerCase : string -> string) (t : string) (u : UserData)
  : Prop :=
  email u = JOther \/
  (displayName u = JOther /\
   forall s, email u = JString s ->
             includes (toLowerCase s) (toLowerCase t) = false).

Definition isDeleteUser (e : effect) : bool :=
  match e with
  | DeleteUser _ => true
  | _ => false
  end.

Definition isNotification (e : effect) : bool :=
  isSuccessNotification e || isErrorNotification e.

Definition isPromptSuccess (ev : Users.event) : bool :=
  match ev with
  | Users.PromptSuccess => true
  | _ => false
  end.

(** Events that leave the prompt and its target alone. *)
Definition passive (ev : Users.event) : bool :=
  match ev with
  | Users.Mount | Users.Unmount | Users.FeedNext _ | Users.FeedError
  | Users.ChangeSearch _ => true
  | _ => false
  end.

(** The records whose delete button was clicked. *)
Fixpoint clicked (evs : list Users.event) : list UserData :=
  match evs with
  | [] => []
  | Users.ClickDelete user :: rest => user :: clicked rest
  | _ :: rest => clicked rest
  end.

Definition passwordCallsNonEmpty (e : effect) : Prop :=
  match e with
  | UpdateUserPassword currentPassword newPassword =>
      currentPassword <> "" /\ newPassword <> ""
  | _ => True
  end.

(** * Properties *)

(** ** The model on concrete inputs *)

Example includes_inside : includes "bob@example.com" "@ex" = true.
Proof. reflexivity. Qed.

Example includes_case_sensitive : includes "Alice" "ali" = false.
Proof. reflexivity. Qed.

Example filter_ignores_case :
  filteredUsers asciiToLowerCase [alice; bob; ghost] "ALICE" = Normal [alice].
Proof. reflexivity. Qed.

Example filter_keeps_order :
  filteredUsers asciiToLowerCase [bob; ghost; alice] "example.COM" =
  Normal [bob; alice].
Proof. reflexivity. Qed.

(** A number in [email] makes the callback throw; behind a matching [email]
    the [displayName] is not looked at. *)
Example filter_throws_on_number :
  filteredUsers asciiToLowerCase
    [alice; mkUserData "u4" JOther (JString "Dan") false 0] "dan" =
  Throw TypeError.
Proof. reflexivity. Qed.

Example filter_short_circuit :
  filteredUsers asciiToLowerCase
    [mkUserData "u5" (JString "eve@example.com") JOther false 0] "EVE" =
  Normal [mkUserData "u5" (JString "eve@example.com") JOther false 0].
Proof. reflexivity. Qed.

Example snapshot_replaces_roster :
  Users.state
    (Users.run Users.initialWorld
       [Users.Mount;
        Users.FeedNext [mkDoc "u9" None JUndefined JUndefined false 9];
        Users.FeedNext [mkDoc "u1" None (JString "Alice@Example.com")
                          (JString "Alice") true 3]]) =
  Users.setLoading false (Users.setUsers [alice] Users.initialState).
Proof. reflexivity. Qed.

Example delete_success_trace :
  Users.log
    (Users.run Users.initialWorld
       [Users.Mount; Users.ClickDelete bob; Users.PromptSuccess;
        Users.Settle 0 Fulfilled]) =
  [Subscribe; DeleteUser "u2";
   ShowSuccessNotification "Пользователь успешно удален"].
Proof. reflexivity. Qed.

Example password_change_success :
  attempt Profile.handleUpdatePassword Fulfilled (fun s => s)
    (Profile.mkState "Alice" "old" "new" "new" false) =
  (Profile.mkState "Alice" "" "" "" false,
   [PreventDefault; UpdateUserPassword "old" "new";
    ShowSuccessNotification "Пароль успешно изменен"]).
Proof. reflexivity. Qed.

(** ** Strings *)

Lemma startsWith_spec (t s : string) :
  startsWith s t = true <-> exists post, s = (t ++ post)%string.
Proof.
  revert s. induction t as [|c t IH]; intros s; simpl.
  - split; [intros _; now exists s | reflexivity].
  - destruct s as [|d s].
    + split; [discriminate | intros [post H]; discriminate].
    + rewrite andb_true_iff, Ascii.eqb_eq, IH. split.
      * intros [-> [post ->]]. now exists post.
      * intros [post H]. injection H as -> ->. split; [reflexivity | now exists post].
Qed.

Lemma includes_unfold (s t : string) :
  includes s t =
  startsWith s t ||
  match s with
  | EmptyString => false
  | String _ s' => includes s' t
  end.
Proof. destruct s; reflexivity. Qed.

Lemma includes_spec (s t : string) :
  includes s t = true <-> contains s t.
Proof.
  unfold contains. split.
  - induction s as [|c s IH]; rewrite includes_unfold, orb_true_iff.
    + intros [H | H]; [| discriminate].
      apply startsWith_spec in H as [post ->]. now exists "", post.
    + intros [H | H].
      * apply startsWith_spec in H as [post ->]. now exists "", post.
      * destruct (IH H) as (pre & post & ->). now exists (String c pre), post.
  - intros (pre & post & ->). induction pre as [|c pre IH].
    + rewrite includes_unfold, orb_true_iff. left.
      apply startsWith_spec. now exists post.
    + simpl. rewrite orb_true_iff. right. exact IH.
Qed.

Lemma includes_empty (s : string) : includes s "" = true.
Proof. apply includes_spec. now exists "", s. Qed.

(** ** [Array.prototype.filter] *)

Section ArrayFilter.

Context {A : Type}.
Variable cb : A -> completion (option bool).

Lemma array_filter_cons_inv x rest kept :
  array_filter cb (x :: rest) = Normal kept ->
  exists v kept',
    cb x = Normal v /\ array_filter cb rest = Normal kept' /\
    kept = if truthy v then x :: kept' else kept'.
Proof.
  simpl. destruct (cb x) as [v|e]; simpl; [| discriminate].
  destruct (array_filter cb rest) as [kept'|e]; simpl; [| discriminate].
  intros [= <-]. now exists v, kept'.
Qed.

Lemma array_filter_In l : forall kept,
  array_filter cb l = Normal kept ->
  forall x, In x kept <-> In x l /\ keeps cb x.
Proof.
  induction l as [|y rest IH]; intros kept H x.
  - injection H as <-. simpl. tauto.
  - apply array_filter_cons_inv in H as (v & kept' & Hy & Hrest & ->).
    specialize (IH _ Hrest x). unfold keeps in *.
    destruct (truthy v) eqn:Hv; simpl; rewrite IH; split.
    + intros [<- | [Hin Hk]]; [| tauto]. split; [now left | now exists v].
    + tauto.
    + tauto.
    + intros [[<- | Hin] Hk]; [| tauto].
      destruct Hk as (v' & Hv' & Ht). rewrite Hy in Hv'.
      injection Hv' as <-. congruence.
Qed.

Lemma array_filter_all l :
  (forall x, In x l -> keeps cb x) -> array_filter cb l = Normal l.
Proof.
  induction l as [|y rest IH]; intros H; [reflexivity |].
  destruct (H y (or_introl eq_refl)) as (v & Hy & Hv).
  simpl. rewrite Hy. simpl. rewrite IH by (intros x Hx; apply H; now right).
  simpl. now rewrite Hv.
Qed.

Lemma array_filter_idem l kept :
  array_filter cb l = Normal kept -> array_filter cb kept = Normal kept.
Proof.
  intros H. apply array_filter_all. intros x Hx.
  now apply (array_filter_In _ _ H).
Qed.

Lemma array_filter_total l :
  (forall x, In x l -> exists v, cb x = Normal v) ->
  exists kept, array_filter cb l = Normal kept.
Proof.
  induction l as [|y rest IH]; intros H; [now exists [] |].
  destruct (H y (or_introl eq_refl)) as (v & Hy).
  destruct IH as [kept Hk]; [intros x Hx; apply H; now right |].
  simpl. rewrite Hy. simpl. rewrite Hk. simpl. eauto.
Qed.

(** When the callback never throws, the result is the list filter of the
    callback's truth value. *)
Lemma array_filter_filter (p : A -> bool) l :
  (forall x, In x l -> exists v, cb x = Normal v /\ truthy v = p x) ->
  array_filter cb l = Normal (filter p l).
Proof.
  induction l as [|y rest IH]; intros H; [reflexivity |].
  destruct (H y (or_introl eq_refl)) as (v & Hy & Hv).
  simpl. rewrite Hy. simpl. rewrite IH by (intros x Hx; apply H; now right).
  simpl. now rewrite Hv.
Qed.

End ArrayFilter.

(** ** The roster filter *)

Section FilterProperties.

Variable toLowerCase : string -> string.

Lemma lowerIncludes_truthy x t v :
  lowerIncludes toLowerCase x t = Normal v -> truthy v = true ->
  ciContains toLowerCase x t.
Proof.
  destruct x as [| |s|]; simpl; intros [= <-]; simpl; try discriminate.
  intros H. exists s. split; [reflexivity | now apply includes_spec].
Qed.

Lemma lowerIncludes_ciContains x t :
  ciContains toLowerCase x t ->
  lowerIncludes toLowerCase x t = Normal (Some true).
Proof.
  intros (s & -> & H). simpl. apply includes_spec in H. now rewrite H.
Qed.

Lemma lowerIncludes_searchable x t :
  searchable x -> exists v, lowerIncludes toLowerCase x t = Normal v.
Proof. destruct x; simpl; intros H; eauto; contradiction. Qed.

Lemma matchesQuery_sound t u :
  keeps (matchesQuery toLowerCase t) u -> recordMatches toLowerCase t u.
Proof.
  intros (v & H & Hv). unfold matchesQuery in H.
  destruct (lowerIncludes toLowerCase (email u) t) as [a|e] eqn:Ha;
    simpl in H; [| discriminate].
  destruct (truthy a) eqn:Hta.
  - left. eapply lowerIncludes_truthy; eauto.
  - right. eapply lowerIncludes_truthy; eauto.
Qed.

Lemma matchesQuery_email t u :
  ciContains toLowerCase (email u) t -> keeps (matchesQuery toLowerCase t) u.
Proof.
  intros H. exists (Some true). unfold matchesQuery.
  rewrite (lowerIncludes_ciContains _ _ H). simpl. auto.
Qed.

Lemma matchesQuery_wellShaped t u :
  wellShaped u -> exists v, matchesQuery toLowerCase t u = Normal v.
Proof.
  intros [He Hd]. unfold matchesQuery.
  destruct (lowerIncludes_searchable _ t He) as [a ->]. simpl.
  destruct (truthy a); [eauto | now apply lowerIncludes_searchable].
Qed.

Lemma matchesQuery_absent t u :
  email u = JUndefined -> displayName u = JUndefined ->
  matchesQuery toLowerCase t u = Normal None.
Proof. intros He Hd. unfold matchesQuery. now rewrite He, Hd. Qed.

Lemma matchesQuery_empty_term u :
  toLowerCase "" = "" -> wellShaped u ->
  exists v, matchesQuery toLowerCase "" u = Normal v /\
            truthy v = hasStringField u.
Proof.
  intros Hlow [He Hd]. unfold matchesQuery, hasStringField.
  destruct (email u) as [| |s|]; simpl in *; try contradiction;
    try (rewrite Hlow, includes_empty; simpl; eauto);
    destruct (displayName u) as [| |s'|]; simpl in *; try contradiction;
    try (rewrite Hlow, includes_empty); eauto.
Qed.

Lemma filteredUsers_In users t kept :
  filteredUsers toLowerCase users t = Normal kept ->
  forall u, In u kept <-> In u users /\ keeps (matchesQuery toLowerCase t) u.
Proof. apply array_filter_In. Qed.

Lemma filteredUsers_total users t :
  Forall wellShaped users ->
  exists kept, filteredUsers toLowerCase users t = Normal kept.
Proof.
  intros H. apply array_filter_total. intros u Hu.
  apply matchesQuery_wellShaped. rewrite Forall_forall in H. auto.
Qed.

Lemma filteredUsers_idem users t kept :
  filteredUsers toLowerCase users t = Normal kept ->
  filteredUsers toLowerCase kept t = Normal kept.
Proof. apply array_filter_idem. Qed.

End FilterProperties.

Lemma filter_all_true {A} (p : A -> bool) (l : list A) :
  (forall x, In x l -> p x = true) -> filter p l = l.
Proof.
  induction l as [|x l IH]; intros H; [reflexivity |].
  simpl. rewrite (H x (or_introl eq_refl)).
  f_equal. apply IH. intros y Hy. apply H. now right.
Qed.

(** C3, as the component computes it.  Every record that [filter(t)]
    returns is a record of the backing set whose [email] or [displayName] is
    a string that contains [t] when case is ignored.  [filter("")] returns,
    in order, the records that have a string [email] or [displayName]: the
    full backing set when every record has one. *)
Theorem filteredUsers_matching_and_empty_term (toLowerCase : string -> string) :
  (forall users t kept,
      filteredUsers toLowerCase users t = Normal kept ->
      forall u, In u kept -> In u users /\ recordMatches toLowerCase t u) /\
  (toLowerCase "" = "" ->
   forall users, Forall wellShaped users ->
     filteredUsers toLowerCase users "" = Normal (filter hasStringField users) /\
     ((forall u, In u users -> hasStringField u = true) ->
      filteredUsers toLowerCase users "" = Normal users)).
Proof.
  split.
  - intros users t kept H u Hu.
    apply (filteredUsers_In _ _ _ _ H) in Hu as [Hin Hk].
    split; [exact Hin | now apply matchesQuery_sound].
  - intros Hlow users Hws.
    assert (E : filteredUsers toLowerCase users "" =
                Normal (filter hasStringField users)).
    { apply array_filter_filter. intros u Hu.
      apply matchesQuery_empty_term; [exact Hlow |].
      rewrite Forall_forall in Hws. auto. }
    split; [exact E |].
    intros Hall. rewrite E. f_equal. now apply filter_all_true.
Qed.

Lemma filteredUsers_matching_and_empty_term_witness :
  (forall u, In u [alice] ->
     In u [alice; bob; ghost] /\ recordMatches asciiToLowerCase "ALI" u) /\
  filteredUsers asciiToLowerCase [alice; bob; ghost] "" = Normal [alice; bob] /\
  filteredUsers asciiToLowerCase [alice; bob] "" = Normal [alice; bob].
Proof.
  destruct (filteredUsers_matching_and_empty_term asciiToLowerCase) as [H1 H2].
  split; [| split].
  - apply (H1 [alice; bob; ghost] "ALI" [alice]). reflexivity.
  - apply (H2 eq_refl [alice; bob; ghost]).
    repeat constructor.
  - apply (H2 eq_refl [alice; bob]).
    + repeat constructor.
    + intros u [<- | [<- | []]]; reflexivity.
Defined.

(** C3 as stated fails: a record without [email] and [displayName] is
    dropped by the empty search term. *)
Lemma filteredUsers_empty_term_counterexample :
  filteredUsers asciiToLowerCase [alice; ghost] "" = Normal [alice] /\
  filteredUsers asciiToLowerCase [alice; ghost] "" <> Normal [alice; ghost].
Proof. split; [reflexivity | discriminate]. Qed.

(** C10.  On records whose [email] and [displayName] are each absent or a
    string the filter returns (no [TypeError]); a record without
    [displayName] whose [email] matches is kept; a record without both
    fields is dropped, whatever the term. *)
Theorem filteredUsers_missing_fields
  (toLowerCase : string -> string) (users : list UserData) (t : string) :
  Forall wellShaped users ->
  exists kept,
    filteredUsers toLowerCase users t = Normal kept /\
    (forall u, In u users -> displayName u = JUndefined ->
               ciContains toLowerCase (email u) t -> In u kept) /\
    (forall u, email u = JUndefined -> displayName u = JUndefined ->
               ~ In u kept).
Proof.
  intros Hws.
  destruct (filteredUsers_total toLowerCase users t Hws) as [kept Hk].
  exists kept. split; [exact Hk | split].
  - intros u Hu _ Hm. apply (filteredUsers_In _ _ _ _ Hk).
    split; [exact Hu | now apply matchesQuery_email].
  - intros u He Hd Hin.
    apply (filteredUsers_In _ _ _ _ Hk) in Hin as [_ (v & Hv & Ht)].
    rewrite (matchesQuery_absent _ _ _ He Hd) in Hv.
    injection Hv as <-. discriminate.
Qed.

Lemma filteredUsers_missing_fields_witness :
  exists kept,
    filteredUsers asciiToLowerCase [alice; bob; ghost] "BOB@" = Normal kept /\
    In bob kept /\ ~ In ghost kept.
Proof.
  destruct (filteredUsers_missing_fields asciiToLowerCase
              [alice; bob; ghost] "BOB@") as (kept & Hk & Hin & Hout).
  - repeat constructor.
  - exists kept. split; [exact Hk | split].
    + apply Hin.
      * simpl. auto.
      * reflexivity.
      * exists "bob@example.com". split; [reflexivity |].
        apply includes_spec. reflexivity.
    + apply Hout; reflexivity.
Defined.

(** ** The filter and the array it reads *)

Lemma heap_filter_inv cb r h r' h' :
  heap_filter cb r h = Normal (r', h') ->
  exists backing kept,
    nth_error h r = Some backing /\
    array_filter cb backing = Normal kept /\
    r' = List.length h /\ h' = h ++ [kept].
Proof.
  unfold heap_filter.
  destruct (nth_error h r) as [backing|] eqn:Hb; [| discriminate].
  destruct (array_filter cb backing) as [kept|e] eqn:Hk; simpl; [| discriminate].
  intros [= <- <-]. now exists backing, kept.
Qed.

Lemma nth_error_snoc_old {A} (h : list A) (x : A) (r : nat) :
  r < List.length h -> nth_error (h ++ [x]) r = nth_error h r.
Proof. intros H. now apply nth_error_app1. Qed.

Lemma nth_error_snoc_new {A} (h : list A) (x : A) :
  nth_error (h ++ [x]) (List.length h) = Some x.
Proof. rewrite nth_error_app2, Nat.sub_diag by lia. reflexivity. Qed.

(** C8.  Computing [filteredUsers] changes no array that exists, the
    backing array among them: the result is a new array.  Its content is a
    function of the backing array and the term, and filtering the result by
    the same term gives the same sequence again. *)
Theorem filteredUsers_pure_idempotent
  (toLowerCase : string -> string) (h : heap) (users : ref) (t : string)
  (r' : ref) (h' : heap) :
  filteredUsersRef toLowerCase users t h = Normal (r', h') ->
  exists backing kept,
    nth_error h users = Some backing /\
    filteredUsers toLowerCase backing t = Normal kept /\
    (forall r, r < List.length h -> nth_error h' r = nth_error h r) /\
    nth_error h' users = Some backing /\
    r' <> users /\
    nth_error h' r' = Some kept /\
    filteredUsers toLowerCase kept t = Normal kept /\
    exists r'' h'',
      filteredUsersRef toLowerCase r' t h' = Normal (r'', h'') /\
      nth_error h'' r'' = Some kept /\
      nth_error h'' users = Some backing.
Proof.
  intros H. apply heap_filter_inv in H as (backing & kept & Hb & Hk & -> & ->).
  assert (Hlt : users < List.length h) by (apply nth_error_Some; congruence).
  assert (Hidem := array_filter_idem _ _ _ Hk).
  exists backing, kept. repeat split.
  - exact Hb.
  - exact Hk.
  - intros r Hr. now apply nth_error_snoc_old.
  - now rewrite nth_error_snoc_old.
  - lia.
  - apply nth_error_snoc_new.
  - exact Hidem.
  - exists (List.length (h ++ [kept])), ((h ++ [kept]) ++ [kept]).
    unfold filteredUsersRef, heap_filter.
    rewrite nth_error_snoc_new. fold (matchesQuery toLowerCase t).
    unfold filteredUsers in Hidem.
    rewrite Hidem. simpl. repeat split.
    + apply nth_error_snoc_new.
    + rewrite !nth_error_snoc_old; [exact Hb | exact Hlt |].
      rewrite length_app. lia.
Qed.

Lemma filteredUsers_pure_idempotent_witness :
  exists backing kept,
    nth_error [[alice; bob; ghost]] 0 = Some backing /\
    filteredUsers asciiToLowerCase backing "example" = Normal kept /\
    nth_error [[alice; bob; ghost]; [alice; bob]] 0 = Some backing /\
    filteredUsers asciiToLowerCase kept "example" = Normal kept.
Proof.
  destruct (filteredUsers_pure_idempotent asciiToLowerCase
              [[alice; bob; ghost]] 0 "example" 1
              [[alice; bob; ghost]; [alice; bob]] eq_refl)
    as (backing & kept & Hb & Hk & _ & Hb' & _ & _ & Hidem & _).
  exists backing, kept. auto.
Defined.

(** ** The delete handler *)

Lemma handleDelete_confirmed (s : Users.State) (target : UserData) :
  Users.selectedUser s = Some target ->
  Users.handleDelete true s =
  (Awaiting Users.afterDeleteUser, s, [DeleteUser (uid target)]).
Proof. intros H. unfold Users.handleDelete, bind, get. simpl. now rewrite H. Qed.

Lemma handleDelete_declined (s : Users.State) :
  Users.handleDelete false s =
  (Returned, Users.setSelectedUser None (Users.setShowPasswordPrompt false s), []).
Proof. reflexivity. Qed.

Lemma handleDelete_no_target (b : bool) (s : Users.State) :
  Users.selectedUser s = None ->
  Users.handleDelete b s =
  (Returned, Users.setSelectedUser None (Users.setShowPasswordPrompt false s), []).
Proof.
  intros H. unfold Users.handleDelete, bind, get. simpl. rewrite H.
  now destruct b.
Qed.

Lemma afterDeleteUser_run (o : settled) (s : Users.State) :
  Users.afterDeleteUser o s =
  (tt, Users.setSelectedUser None (Users.setShowPasswordPrompt false s),
   [match o with
    | Fulfilled => ShowSuccessNotification "Пользователь успешно удален"
    | Rejected => ShowErrorNotification "Ошибка при удалении пользователя"
    end]).
Proof. now destruct o. Qed.

Lemma closed_idle (s : Users.State) :
  Users.idleState (Users.setSelectedUser None (Users.setShowPasswordPrompt false s)).
Proof. split; reflexivity. Qed.

Lemma handleDelete_cases (b : bool) (s : Users.State) :
  (exists target, b = true /\ Users.selectedUser s = Some target) \/
  Users.handleDelete b s =
  (Returned, Users.setSelectedUser None (Users.setShowPasswordPrompt false s), []).
Proof.
  destruct b; [| right; apply handleDelete_declined].
  destruct (Users.selectedUser s) as [target|] eqn:H.
  - left. eauto.
  - right. now apply handleDelete_no_target.
Qed.

(** C1.  [handleDelete(false)] returns at once, with the prompt closed and
    the target cleared, whatever the target was: it calls nothing, [deleteUser]
    included, and leaves no call in flight. *)
Theorem handleDelete_unauthenticated (s : Users.State) :
  valueOf (Users.handleDelete false s) = Returned /\
  callsOf (Users.handleDelete false s) = [] /\
  Users.idleState (stateOf (Users.handleDelete false s)) /\
  (forall o between, attempt (Users.handleDelete false) o between s =
                     (stateOf (Users.handleDelete false s), [])) /\
  (forall w,
      let w' := Users.execAsync (Users.handleDelete false) w in
      Users.log w' = Users.log w /\
      Users.pending w' = Users.pending w /\
      Users.idleState (Users.state w') /\
      Users.controllerOf w' =
      match Users.pending w with
      | [] => Users.Idle
      | _ :: _ => Users.Committing
      end).
Proof.
  split; [reflexivity |]. split; [reflexivity |].
  split; [apply closed_idle |]. split; [reflexivity |].
  intros w. cbv zeta. split; [| split; [| split]].
  - simpl. apply app_nil_r.
  - reflexivity.
  - apply closed_idle.
  - unfold Users.controllerOf. simpl. now destruct (Users.pending w).
Qed.

(** ** The component in time *)

Lemma exec_pending m w : Users.pending (Users.exec m w) = Users.pending w.
Proof. unfold Users.exec. now destruct (m (Users.state w)) as [[a s] e]. Qed.

Lemma controllerOf_Idle w :
  Users.controllerOf w = Users.Idle <->
  Users.pending w = [] /\ Users.idleState (Users.state w).
Proof.
  unfold Users.controllerOf, Users.idleState.
  destruct (Users.pending w) as [|k p].
  - destruct (Users.showPasswordPrompt (Users.state w));
      destruct (Users.selectedUser (Users.state w)); simpl;
      split; try discriminate; try tauto;
      intros [_ [H1 H2]]; discriminate.
  - split; [discriminate | intros [H _]; discriminate].
Qed.

Lemma controllerOf_Committing w :
  Users.controllerOf w = Users.Committing <-> Users.pending w <> [].
Proof.
  unfold Users.controllerOf. destruct (Users.pending w) as [|k p].
  - destruct (_ || _); split; try discriminate; congruence.
  - split; [discriminate | reflexivity].
Qed.

Lemma removeNth_Forall {A} (P : A -> Prop) (l : list A) : forall i,
  Forall P l -> Forall P (Users.removeNth i l).
Proof.
  induction l as [|x l IH]; intros i H; [destruct i; constructor |].
  inversion H as [|? ? Hx Hl]; subst.
  destruct i as [|j]; simpl; [exact Hl | constructor; auto].
Qed.

Lemma step_pendingDeletes w ev :
  Users.pendingDeletes w -> Users.pendingDeletes (Users.step w ev).
Proof.
  unfold Users.pendingDeletes. intros H.
  destruct ev as [| |docs| |q|user| | |i o]; simpl; try exact H.
  - destruct (Users.listening w); [| exact H]. exact H.
  - unfold Users.execAsync, Users.promptOnSuccess.
    destruct (handleDelete_cases true (Users.state w))
      as [(target & _ & Ht) | E].
    + rewrite (handleDelete_confirmed _ _ Ht). simpl.
      apply Forall_app. split; [exact H | now constructor].
    + rewrite E. exact H.
  - destruct (nth_error (Users.pending w) i) as [k|]; [| exact H].
    rewrite exec_pending. simpl. now apply removeNth_Forall.
Qed.

Lemma reachable_pendingDeletes w :
  Users.reachable w -> Users.pendingDeletes w.
Proof.
  induction 1 as [|w ev _ IH]; [constructor | now apply step_pendingDeletes].
Qed.

Lemma run_cons w ev evs :
  Users.run w (ev :: evs) = Users.run (Users.step w ev) evs.
Proof. reflexivity. Qed.

Lemma run_pendingDeletes evs : forall w,
  Users.pendingDeletes w -> Users.pendingDeletes (Users.run w evs).
Proof.
  induction evs as [|ev evs IH]; intros w H; [exact H |].
  apply IH. now apply step_pendingDeletes.
Qed.

Lemma run_reachable evs : forall w,
  Users.reachable w -> Users.reachable (Users.run w evs).
Proof.
  induction evs as [|ev evs IH]; intros w H; [exact H |].
  apply IH. now constructor.
Qed.

(** The oldest pending delete settles. *)
Lemma step_settle_head w k rest o :
  Users.pending w = k :: rest -> k = Users.afterDeleteUser ->
  Users.step w (Users.Settle 0 o) =
  {| Users.state :=
       Users.setSelectedUser None
         (Users.setShowPasswordPrompt false (Users.state w));
     Users.pending := rest;
     Users.log :=
       Users.log w ++
       [match o with
        | Fulfilled => ShowSuccessNotification "Пользователь успешно удален"
        | Rejected => ShowErrorNotification "Ошибка при удалении пользователя"
        end];
     Users.listening := Users.listening w |}.
Proof.
  intros Hp ->. simpl. rewrite Hp. simpl.
  unfold Users.exec. simpl. now rewrite afterDeleteUser_run.
Qed.

Lemma settle_all_idle os : forall w,
  Users.pendingDeletes w -> Users.idleState (Users.state w) ->
  List.length os = List.length (Users.pending w) ->
  Users.controllerOf (Users.run w (map (Users.Settle 0) os)) = Users.Idle.
Proof.
  induction os as [|o os IH]; intros w Hinv Hidle Hlen.
  - simpl. apply controllerOf_Idle. split; [| exact Hidle].
    destruct (Users.pending w); [reflexivity | discriminate].
  - destruct (Users.pending w) as [|k rest] eqn:Hp; [discriminate |].
    assert (Hk : k = Users.afterDeleteUser).
    { unfold Users.pendingDeletes in Hinv. rewrite Hp in Hinv.
      now inversion Hinv. }
    cbn [map]. rewrite run_cons, (step_settle_head _ _ _ o Hp Hk). apply IH.
    + unfold Users.pendingDeletes in *. rewrite Hp in Hinv. simpl.
      now inversion Hinv.
    + apply closed_idle.
    + simpl in *. lia.
Qed.

(** ** The Profile handlers *)

Lemma handleUpdatePassword_differ (s : Profile.State) :
  Profile.newPassword s <> Profile.confirmPassword s ->
  Profile.handleUpdatePassword s =
  (Returned, s, [PreventDefault; ShowErrorNotification "Пароли не совпадают"]).
Proof.
  intros H. apply String.eqb_neq in H.
  unfold Profile.handleUpdatePassword, bind, get, call. simpl.
  now rewrite H.
Qed.

Lemma handleUpdatePassword_same (s : Profile.State) :
  Profile.newPassword s = Profile.confirmPassword s ->
  Profile.handleUpdatePassword s =
  (Awaiting Profile.afterUpdateUserPassword, Profile.setLoading true s,
   [PreventDefault;
    UpdateUserPassword (Profile.currentPassword s) (Profile.newPassword s)]).
Proof.
  intros H. apply String.eqb_eq in H.
  unfold Profile.handleUpdatePassword, bind, get, call. simpl.
  now rewrite H.
Qed.

Lemma afterUpdateUserPassword_idle (o : settled) (s : Profile.State) :
  Profile.idleState (stateOf (Profile.afterUpdateUserPassword o s)).
Proof. now destruct o. Qed.

Lemma afterUpdateUserProfile_idle (o : settled) (s : Profile.State) :
  Profile.idleState (stateOf (Profile.afterUpdateUserProfile o s)).
Proof. now destruct o. Qed.

Lemma attempt_awaiting {S} (h : M S (async S)) k s1 e1 o between s :
  h s = (Awaiting k, s1, e1) ->
  attempt h o between s =
  (stateOf (k o (between s1)), e1 ++ callsOf (k o (between s1))).
Proof.
  intros H. unfold attempt. rewrite H.
  now destruct (k o (between s1)) as [[u s2] e2].
Qed.

Lemma attempt_returned {S} (h : M S (async S)) s1 e1 o between s :
  h s = (Returned, s1, e1) -> attempt h o between s = (s1, e1).
Proof. intros H. unfold attempt. now rewrite H. Qed.

(** C2.  When [newPassword] differs from [confirmPassword],
    [handleUpdatePassword] returns after one error notification: it does not
    call [updateUserPassword] or any other backend function and the form
    is left as it was. *)
Theorem handleUpdatePassword_mismatch (s : Profile.State) :
  Profile.newPassword s <> Profile.confirmPassword s ->
  valueOf (Profile.handleUpdatePassword s) = Returned /\
  stateOf (Profile.handleUpdatePassword s) = s /\
  callsOf (Profile.handleUpdatePassword s) =
    [PreventDefault; ShowErrorNotification "Пароли не совпадают"] /\
  count isBackendCall (callsOf (Profile.handleUpdatePassword s)) = 0 /\
  count isErrorNotification (callsOf (Profile.handleUpdatePassword s)) = 1 /\
  count isSuccessNotification (callsOf (Profile.handleUpdatePassword s)) = 0 /\
  forall o between,
    attempt Profile.handleUpdatePassword o between s =
    (s, [PreventDefault; ShowErrorNotification "Пароли не совпадают"]).
Proof.
  intros H. rewrite (handleUpdatePassword_differ s H).
  repeat split. intros o between.
  now apply attempt_returned, handleUpdatePassword_differ.
Qed.

Lemma handleUpdatePassword_mismatch_witness :
  let s := {| Profile.displayName := "Alice";
              Profile.currentPassword := "old";
              Profile.newPassword := "secret1";
              Profile.confirmPassword := "secret2";
              Profile.loading := false |} in
  count isBackendCall (callsOf (Profile.handleUpdatePassword s)) = 0 /\
  count isErrorNotification (callsOf (Profile.handleUpdatePassword s)) = 1.
Proof.
  intros s.
  destruct (handleUpdatePassword_mismatch s) as (_ & _ & _ & H0 & H1 & _).
  - discriminate.
  - split; [exact H0 | exact H1].
Defined.

(** ** Notifications of the delete handler *)

(** C6.  A [handleDelete(true)] with a target calls [deleteUser] and then
    shows one notification: the success one when the call is fulfilled, the
    error one when it is rejected.  Closing the prompt and
    [handleDelete(false)] show none. *)
Theorem handleDelete_one_notification :
  (forall s target o between,
      Users.selectedUser s = Some target ->
      let calls := snd (attempt (Users.handleDelete true) o between s) in
      calls =
        [DeleteUser (uid target);
         match o with
         | Fulfilled => ShowSuccessNotification "Пользователь успешно удален"
         | Rejected => ShowErrorNotification "Ошибка при удалении пользователя"
         end] /\
      count isSuccessNotification calls =
        match o with Fulfilled => 1 | Rejected => 0 end /\
      count isErrorNotification calls =
        match o with Fulfilled => 0 | Rejected => 1 end) /\
  (forall s, callsOf (Users.promptOnClose s) = []) /\
  (forall s o between,
      snd (attempt (Users.handleDelete false) o between s) = []).
Proof.
  split; [| split].
  - intros s target o between H calls. subst calls.
    rewrite (attempt_awaiting _ _ _ _ o between s (handleDelete_confirmed s target H)).
    rewrite afterDeleteUser_run. now destruct o.
  - reflexivity.
  - reflexivity.
Qed.

Lemma handleDelete_one_notification_witness :
  let s := Users.setSelectedUser (Some alice) Users.initialState in
  snd (attempt (Users.handleDelete true) Rejected (fun x => x) s) =
  [DeleteUser "u1"; ShowErrorNotification "Ошибка при удалении пользователя"].
Proof.
  intros s.
  destruct handleDelete_one_notification as [H _].
  destruct (H s alice Rejected (fun x => x) eq_refl) as [Hcalls _].
  exact Hcalls.
Defined.

(** ** Scenarios of the delete controller *)

Lemma idle_world w :
  Users.controllerOf w = Users.Idle ->
  exists s l li,
    w = {| Users.state := s; Users.pending := []; Users.log := l;
           Users.listening := li |} /\
    Users.idleState s.
Proof.
  intros H. apply controllerOf_Idle in H as [Hp Hs].
  destruct w as [s p l li]. simpl in *. subst p. now exists s, l, li.
Qed.

(** C7.  [handleDeleteClick(U)] followed by the prompt's [onClose] calls
    nothing and leaves the prompt closed and [selectedUser] null.  From an
    idle controller the click leads to AwaitingConfirmation with [U] as
    target, and the close back to Idle with nothing logged. *)
Theorem requestDelete_then_cancel :
  (forall s U,
      let r := (Users.handleDeleteClick U ;; Users.promptOnClose) s in
      callsOf r = [] /\ Users.idleState (stateOf r) /\
      Users.selectedUser (stateOf r) = None) /\
  (forall w U,
      Users.controllerOf w = Users.Idle ->
      let w1 := Users.step w (Users.ClickDelete U) in
      let w2 := Users.run w [Users.ClickDelete U; Users.PromptClose] in
      Users.controllerOf w1 = Users.AwaitingConfirmation /\
      Users.selectedUser (Users.state w1) = Some U /\
      Users.log w1 = Users.log w /\
      Users.log w2 = Users.log w /\
      Users.pending w2 = [] /\
      Users.controllerOf w2 = Users.Idle /\
      Users.selectedUser (Users.state w2) = None).
Proof.
  split.
  - intros s U r. subst r. repeat split.
  - intros w U H w1 w2. subst w1 w2.
    destruct (idle_world w H) as (s & l & li & -> & _).
    simpl. rewrite !app_nil_r. repeat split.
Qed.

Lemma requestDelete_then_cancel_witness :
  let w := Users.run Users.initialWorld
             [Users.Mount; Users.FeedNext
                [mkDoc "u1" None (JString "Alice@Example.com") (JString "Alice") true 3]] in
  let w2 := Users.run w [Users.ClickDelete alice; Users.PromptClose] in
  Users.log w2 = Users.log w /\ Users.controllerOf w2 = Users.Idle /\
  Users.selectedUser (Users.state w2) = None.
Proof.
  intros w w2.
  destruct requestDelete_then_cancel as [_ H].
  destruct (H w alice eq_refl) as (_ & _ & _ & Hlog & _ & Hidle & Hsel).
  repeat split; assumption.
Defined.

(** C9.  From an idle controller, a click on [U]'s delete button, a
    confirmed prompt and a rejected [deleteUser] add exactly the backend
    call and one error notification to the log and end in Idle with the
    roster as it was, [U] still in it.  No part of the delete handler writes
    [users]. *)
Theorem delete_failure_keeps_roster (w : Users.World) (U : UserData) :
  Users.controllerOf w = Users.Idle ->
  In U (Users.users (Users.state w)) ->
  let w2 := Users.run w [Users.ClickDelete U; Users.PromptSuccess] in
  let w3 := Users.run w [Users.ClickDelete U; Users.PromptSuccess;
                         Users.Settle 0 Rejected] in
  Users.controllerOf w2 = Users.Committing /\
  Users.log w3 =
    Users.log w ++
    [DeleteUser (uid U);
     ShowErrorNotification "Ошибка при удалении пользователя"] /\
  count isErrorNotification (Users.log w3) =
    S (count isErrorNotification (Users.log w)) /\
  count isSuccessNotification (Users.log w3) =
    count isSuccessNotification (Users.log w) /\
  Users.controllerOf w3 = Users.Idle /\
  Users.users (Users.state w3) = Users.users (Users.state w) /\
  In U (Users.users (Users.state w3)) /\
  (forall b s, Users.users (stateOf (Users.handleDelete b s)) = Users.users s) /\
  (forall o s, Users.users (stateOf (Users.afterDeleteUser o s)) = Users.users s).
Proof.
  intros H HU w2 w3. subst w2 w3.
  destruct (idle_world w H) as (s & l & li & -> & _).
  simpl in HU. simpl. rewrite !app_nil_r, <- !app_assoc. simpl.
  split; [reflexivity |]. split; [reflexivity |].
  split; [unfold count; rewrite !filter_app, !length_app; simpl; lia |].
  split; [unfold count; rewrite !filter_app, !length_app; simpl; lia |].
  split; [reflexivity |]. split; [reflexivity |]. split; [exact HU |].
  split.
  - intros b s0.
    destruct (handleDelete_cases b s0) as [(target & -> & Ht) | E].
    + now rewrite (handleDelete_confirmed _ _ Ht).
    + now rewrite E.
  - intros o s0. now rewrite afterDeleteUser_run.
Qed.

Lemma delete_failure_keeps_roster_witness :
  let w := Users.run Users.initialWorld
             [Users.Mount; Users.FeedNext
                [mkDoc "u1" None (JString "Alice@Example.com") (JString "Alice") true 3]] in
  let w3 := Users.run w [Users.ClickDelete alice; Users.PromptSuccess;
                         Users.Settle 0 Rejected] in
  Users.controllerOf w3 = Users.Idle /\ In alice (Users.users (Users.state w3)).
Proof.
  intros w w3.
  destruct (delete_failure_keeps_roster w alice eq_refl (or_introl eq_refl))
    as (_ & _ & _ & _ & Hidle & _ & Hin & _).
  split; assumption.
Defined.

(** ** Every attempt ends *)

(** C5.  Whatever happens to the state while the promise is pending and
    however it settles: after [handleDelete] the prompt is closed and the
    target cleared; after [handleUpdateProfile], and after a
    [handleUpdatePassword] that called the backend, [loading] is false; a
    [handleUpdatePassword] stopped by the local check never set [loading].
    In the running component, once the pending calls have settled the
    controller is Idle. *)
Theorem mutation_attempts_end_idle :
  (forall b o between s,
      Users.idleState (fst (attempt (Users.handleDelete b) o between s))) /\
  (forall o between s,
      Profile.idleState (fst (attempt Profile.handleUpdateProfile o between s))) /\
  (forall o between s,
      Profile.newPassword s = Profile.confirmPassword s ->
      Profile.idleState (fst (attempt Profile.handleUpdatePassword o between s))) /\
  (forall o between s,
      Profile.newPassword s <> Profile.confirmPassword s ->
      fst (attempt Profile.handleUpdatePassword o between s) = s) /\
  (forall w os,
      Users.reachable w ->
      Users.controllerOf w = Users.Committing ->
      List.length os = List.length (Users.pending w) ->
      Users.controllerOf (Users.run w (map (Users.Settle 0) os)) = Users.Idle).
Proof.
  split; [| split; [| split; [| split]]].
  - intros b o between s.
    destruct (handleDelete_cases b s) as [(target & -> & Ht) | E].
    + rewrite (attempt_awaiting _ _ _ _ o between s
                 (handleDelete_confirmed s target Ht)).
      rewrite afterDeleteUser_run. apply closed_idle.
    + rewrite (attempt_returned _ _ _ o between s E). apply closed_idle.
  - intros o between s.
    rewrite (attempt_awaiting Profile.handleUpdateProfile
               Profile.afterUpdateUserProfile (Profile.setLoading true s)
               [PreventDefault; UpdateUserProfile (Profile.displayName s)]
               o between s eq_refl).
    apply afterUpdateUserProfile_idle.
  - intros o between s H.
    rewrite (attempt_awaiting _ _ _ _ o between s
               (handleUpdatePassword_same s H)).
    apply afterUpdateUserPassword_idle.
  - intros o between s H.
    now rewrite (attempt_returned _ _ _ o between s
                   (handleUpdatePassword_differ s H)).
  - intros w os Hreach Hcom Hlen.
    apply reachable_pendingDeletes in Hreach.
    apply controllerOf_Committing in Hcom.
    destruct (Users.pending w) as [|k rest] eqn:Hp; [congruence |].
    destruct os as [|o os]; [discriminate |].
    assert (Hk : k = Users.afterDeleteUser).
    { unfold Users.pendingDeletes in Hreach. rewrite Hp in Hreach.
      now inversion Hreach. }
    cbn [map]. rewrite run_cons, (step_settle_head _ _ _ o Hp Hk).
    apply settle_all_idle.
    + unfold Users.pendingDeletes in *. rewrite Hp in Hreach. simpl.
      now inversion Hreach.
    + apply closed_idle.
    + simpl in *. lia.
Qed.

Lemma mutation_attempts_end_idle_witness :
  Profile.idleState
    (fst (attempt Profile.handleUpdatePassword Rejected
            (fun s => s)
            {| Profile.displayName := "Alice";
               Profile.currentPassword := "old";
               Profile.newPassword := "secret";
               Profile.confirmPassword := "secret";
               Profile.loading := false |})) /\
  fst (attempt Profile.handleUpdatePassword Fulfilled
         (fun s => s)
         {| Profile.displayName := "Alice";
            Profile.currentPassword := "old";
            Profile.newPassword := "secret";
            Profile.confirmPassword := "other";
            Profile.loading := false |}) =
  {| Profile.displayName := "Alice";
     Profile.currentPassword := "old";
     Profile.newPassword := "secret";
     Profile.confirmPassword := "other";
     Profile.loading := false |} /\
  Users.controllerOf
    (Users.run
       (Users.run Users.initialWorld
          [Users.Mount; Users.ClickDelete alice; Users.PromptSuccess;
           Users.ClickDelete bob; Users.PromptSuccess])
       (map (Users.Settle 0) [Rejected; Fulfilled])) = Users.Idle.
Proof.
  destruct mutation_attempts_end_idle as (_ & _ & Hsame & Hdiff & Hworld).
  split; [| split].
  - apply Hsame. reflexivity.
  - apply Hdiff. discriminate.
  - apply Hworld.
    + apply run_reachable. constructor.
    + reflexivity.
    + reflexivity.
Defined.

(** ** A failing subscription *)

Lemma step_no_subscribe w ev :
  Users.pendingDeletes w -> ev <> Users.Mount ->
  filter isSubscribe (Users.log (Users.step w ev)) =
  filter isSubscribe (Users.log w).
Proof.
  intros Hinv Hev.
  destruct ev as [| |docs| |q|user| | |i o]; simpl;
    try congruence; try reflexivity;
    rewrite ?filter_app; simpl; rewrite ?app_nil_r; try reflexivity.
  - destruct (Users.listening w); [| reflexivity].
    simpl. now rewrite filter_app, app_nil_r.
  - unfold Users.execAsync, Users.promptOnSuccess.
    destruct (handleDelete_cases true (Users.state w))
      as [(target & _ & Ht) | E].
    + rewrite (handleDelete_confirmed _ _ Ht). simpl.
      now rewrite filter_app, app_nil_r.
    + rewrite E. simpl. now rewrite app_nil_r.
  - destruct (nth_error (Users.pending w) i) as [k|] eqn:Hk; [| reflexivity].
    assert (k = Users.afterDeleteUser) as ->.
    { unfold Users.pendingDeletes in Hinv. rewrite Forall_forall in Hinv.
      apply Hinv. eapply nth_error_In; eauto. }
    unfold Users.exec. simpl. rewrite afterDeleteUser_run. simpl.
    rewrite filter_app. destruct o; simpl; now rewrite app_nil_r.
Qed.

Lemma run_no_subscribe evs : forall w,
  Users.pendingDeletes w -> ~ In Users.Mount evs ->
  filter isSubscribe (Users.log (Users.run w evs)) =
  filter isSubscribe (Users.log w).
Proof.
  induction evs as [|ev evs IH]; intros w Hinv Hno; [reflexivity |].
  rewrite run_cons, IH.
  - apply step_no_subscribe; [exact Hinv |].
    intros ->. apply Hno. now left.
  - now apply step_pendingDeletes.
  - intros Hin. apply Hno. now right.
Qed.

(** C4, as the component behaves.  [onSnapshot] is given no error
    callback, so a failing subscription runs nothing of the component: its
    state, and with it what it renders, stay as they were, nothing is
    called, and no later event subscribes again unless the component is
    mounted anew. *)
Theorem subscription_error_changes_nothing (w : Users.World) (evs : list Users.event) :
  Users.reachable w ->
  ~ In Users.Mount evs ->
  let w' := Users.step w Users.FeedError in
  Users.state w' = Users.state w /\
  Users.log w' = Users.log w /\
  Users.pending w' = Users.pending w /\
  (forall toLowerCase,
      Users.render toLowerCase (Users.state w') =
      Users.render toLowerCase (Users.state w)) /\
  filter isSubscribe (Users.log (Users.run w' evs)) =
  filter isSubscribe (Users.log w).
Proof.
  intros Hreach Hno w'. subst w'.
  split; [reflexivity |]. split; [reflexivity |]. split; [reflexivity |].
  split; [reflexivity |].
  rewrite run_no_subscribe; [reflexivity | | exact Hno].
  apply step_pendingDeletes. now apply reachable_pendingDeletes.
Qed.

Lemma subscription_error_changes_nothing_witness :
  let w := Users.step Users.initialWorld Users.Mount in
  let w' := Users.step w Users.FeedError in
  Users.state w' = Users.state w /\
  filter isSubscribe
    (Users.log (Users.run w' [Users.ChangeSearch "a"; Users.ClickDelete alice;
                              Users.PromptSuccess; Users.Settle 0 Fulfilled])) =
  [Subscribe].
Proof.
  intros w w'.
  destruct (subscription_error_changes_nothing w
              [Users.ChangeSearch "a"; Users.ClickDelete alice;
               Users.PromptSuccess; Users.Settle 0 Fulfilled])
    as (Hs & _ & _ & _ & Hsub).
  - constructor. constructor.
  - intros [H | [H | [H | [H | []]]]]; discriminate.
  - split; [exact Hs | exact Hsub].
Defined.

(** C4 as stated fails: when the subscription fails before the first
    snapshot the component keeps showing the spinner, and when it fails
    later it keeps showing the last roster; neither is the empty state. *)
Lemma subscription_error_counterexample :
  Users.render asciiToLowerCase
    (Users.state (Users.run Users.initialWorld [Users.Mount; Users.FeedError])) =
  Normal {| Users.v_body := Users.Spinner; Users.v_prompt := false |} /\
  ~ Users.showsEmptyState
      (Users.render asciiToLowerCase
         (Users.state (Users.run Users.initialWorld [Users.Mount; Users.FeedError]))) /\
  ~ Users.showsEmptyState
      (Users.render asciiToLowerCase
         (Users.state
            (Users.run Users.initialWorld
               [Users.Mount;
                Users.FeedNext
                  [mkDoc "u1" None (JString "Alice@Example.com") (JString "Alice") true 3];
                Users.FeedError]))).
Proof.
  split; [reflexivity |].
  split; intros (msg & p & H); discriminate H.
Qed.

(** * Further properties *)

(** ** The filter as a list filter *)

Lemma array_filter_as_filter {A} (cb : A -> completion (option bool)) l :
  forall kept,
    array_filter cb l = Normal kept ->
    kept = filter (fun x => match cb x with
                            | Normal v => truthy v
                            | Throw _ => false
                            end) l.
Proof.
  induction l as [|x rest IH]; intros kept H.
  - now injection H as <-.
  - apply array_filter_cons_inv in H as (v & kept' & Hx & Hrest & ->).
    simpl. rewrite Hx, <- (IH _ Hrest). now destruct (truthy v).
Qed.

Lemma array_filter_returns_on {A} (cb : A -> completion (option bool)) l :
  forall kept,
    array_filter cb l = Normal kept ->
    forall x, In x l -> exists v, cb x = Normal v.
Proof.
  induction l as [|y rest IH]; intros kept H x Hx; [contradiction |].
  apply array_filter_cons_inv in H as (v & kept' & Hy & Hrest & _).
  destruct Hx as [<- | Hx]; [eauto | eapply IH; eauto].
Qed.

Lemma array_filter_throws {A} (cb : A -> completion (option bool)) l :
  array_filter cb l = Throw TypeError <->
  exists x, In x l /\ cb x = Throw TypeError.
Proof.
  induction l as [|y rest IH]; simpl.
  - split; [discriminate | intros (x & [] & _)].
  - destruct (cb y) as [v|[]] eqn:Hy; simpl.
    + destruct (array_filter cb rest) as [kept|[]]; simpl.
      * split; [discriminate |].
        intros (x & [<- | Hx] & Hthrow); [congruence |].
        assert (E : Normal kept = Throw TypeError :> completion (list A))
          by (apply IH; eauto).
        discriminate E.
      * split; [| reflexivity]. intros _.
        destruct IH as [IH _]. destruct (IH eq_refl) as (x & Hx & Hthrow).
        exists x. auto.
    + split; [| reflexivity]. intros _. exists y. auto.
Qed.

Lemma matchesQuery_throws tl t u :
  matchesQuery tl t u = Throw TypeError <-> throwsOn tl t u.
Proof.
  unfold matchesQuery, throwsOn.
  destruct (email u) as [| |s|]; simpl.
  - destruct (displayName u); simpl; split; try discriminate.
    + intros [H | [H _]]; discriminate.
    + intros [H | [H _]]; discriminate.
    + intros [H | [H _]]; discriminate.
    + intros _. right. split; [reflexivity | discriminate].
    + reflexivity.
  - destruct (displayName u); simpl; split; try discriminate.
    + intros [H | [H _]]; discriminate.
    + intros [H | [H _]]; discriminate.
    + intros [H | [H _]]; discriminate.
    + intros _. right. split; [reflexivity | discriminate].
    + reflexivity.
  - destruct (includes (tl s) (tl t)) eqn:Hinc; simpl.
    + split; [discriminate |].
      intros [H | [_ H]]; [discriminate |].
      specialize (H s eq_refl). congruence.
    + destruct (displayName u); simpl; split; try discriminate.
      * intros [H | [H _]]; discriminate.
      * intros [H | [H _]]; discriminate.
      * intros [H | [H _]]; discriminate.
      * intros _. right. split; [reflexivity |].
        intros s' [= <-]. exact Hinc.
      * reflexivity.
  - split; [intros _; now left | reflexivity].
Qed.

(** X1.  When the filter returns, its result is the backing list with the
    records removed on which the callback is not truthy: the order and the
    multiplicity of the others are kept, the result is no longer than the
    roster, and has no duplicate when the roster has none. *)
Theorem filteredUsers_is_list_filter
  (toLowerCase : string -> string) (users : list UserData) (t : string)
  (kept : list UserData) :
  filteredUsers toLowerCase users t = Normal kept ->
  kept = filter (matchesb toLowerCase t) users /\
  List.length kept <= List.length users /\
  (NoDup users -> NoDup kept).
Proof.
  intros H. apply array_filter_as_filter in H.
  fold (matchesb toLowerCase t) in H. subst kept.
  split; [reflexivity |]. split.
  - apply filter_length_le.
  - apply NoDup_filter.
Qed.

Lemma filteredUsers_is_list_filter_witness :
  [bob; alice] = filter (matchesb asciiToLowerCase "example") [bob; ghost; alice] /\
  2 <= 3.
Proof.
  destruct (filteredUsers_is_list_filter asciiToLowerCase
              [bob; ghost; alice] "example" [bob; alice] eq_refl)
    as (H1 & H2 & _).
  split; [exact H1 | exact H2].
Defined.

(** X2.  When the filter returns, a record is in the result if and only if
    it is in the roster and its [email] or [displayName] is a string that
    contains the term when case is ignored. *)
Theorem filteredUsers_exactly_matching
  (toLowerCase : string -> string) (users : list UserData) (t : string)
  (kept : list UserData) :
  filteredUsers toLowerCase users t = Normal kept ->
  forall u, In u kept <-> In u users /\ recordMatches toLowerCase t u.
Proof.
  intros H u. rewrite (filteredUsers_In _ _ _ _ H). split.
  - intros [Hin Hk]. split; [exact Hin | now apply matchesQuery_sound].
  - intros [Hin [He | Hd]]; split; try exact Hin.
    + now apply matchesQuery_email.
    + destruct (array_filter_returns_on _ _ _ H u Hin) as [v Hv].
      unfold keeps. unfold matchesQuery in *.
      destruct (lowerIncludes toLowerCase (email u) t) as [a|e];
        simpl in *; [| discriminate].
      destruct (truthy a) eqn:Ha.
      * exists a. auto.
      * exists (Some true). split; [| reflexivity].
        now apply lowerIncludes_ciContains.
Qed.

Lemma filteredUsers_exactly_matching_witness :
  In bob [bob; alice] <->
  In bob [bob; ghost; alice] /\ recordMatches asciiToLowerCase "EXAMPLE" bob.
Proof.
  exact (filteredUsers_exactly_matching asciiToLowerCase
           [bob; ghost; alice] "EXAMPLE" [bob; alice] eq_refl bob).
Defined.

(** X3.  The filter, and with it the rendering of the component, throws
    [TypeError] exactly when some record of the roster, at any position, has
    an [email] that is neither nullish nor a string, or has such a
    [displayName] behind an [email] that does not match. *)
Theorem filteredUsers_throws_iff
  (toLowerCase : string -> string) (s : Users.State) :
  (filteredUsers toLowerCase (Users.users s) (Users.searchQuery s) = Throw TypeError <->
   exists u, In u (Users.users s) /\ throwsOn toLowerCase (Users.searchQuery s) u) /\
  (Users.render toLowerCase s = Throw TypeError <->
   exists u, In u (Users.users s) /\ throwsOn toLowerCase (Users.searchQuery s) u).
Proof.
  assert (E : filteredUsers toLowerCase (Users.users s) (Users.searchQuery s)
              = Throw TypeError <->
              exists u, In u (Users.users s) /\
                        throwsOn toLowerCase (Users.searchQuery s) u).
  { unfold filteredUsers. rewrite array_filter_throws.
    split; intros (u & Hu & H); exists u; split; auto;
      now apply matchesQuery_throws. }
  split; [exact E |].
  rewrite <- E. unfold Users.render.
  destruct (filteredUsers toLowerCase (Users.users s) (Users.searchQuery s))
    as [rows|[]]; simpl; split; try discriminate; reflexivity.
Qed.

(** ** What is on screen *)

(** X4.  When the component renders: the prompt is mounted exactly when
    [showPasswordPrompt] is set; while [loading] the body is the spinner;
    afterwards the body is the list of exactly the matching records when
    there is one, and otherwise the empty state, whose text tells an empty
    search from a fruitless one. *)
Theorem render_body
  (toLowerCase : string -> string) (s : Users.State) (v : Users.view) :
  Users.render toLowerCase s = Normal v ->
  Users.v_prompt v = Users.showPasswordPrompt s /\
  (Users.loading s = true -> Users.v_body v = Users.Spinner) /\
  (Users.loading s = false ->
   match Users.v_body v with
   | Users.Spinner => False
   | Users.EmptyState msg =>
       (forall u, In u (Users.users s) ->
                  ~ recordMatches toLowerCase (Users.searchQuery s) u) /\
       msg = (if Users.nonEmpty (Users.searchQuery s)
              then "По вашему запросу ничего не найдено"
              else "Список пользователей пуст")
   | Users.Roster rows =>
       rows <> [] /\
       forall u, In u rows <->
                 In u (Users.users s) /\
                 recordMatches toLowerCase (Users.searchQuery s) u
   end).
Proof.
  unfold Users.render.
  destruct (filteredUsers toLowerCase (Users.users s) (Users.searchQuery s))
    as [rows|e] eqn:Hrows; simpl; [| discriminate].
  intros [= <-]. simpl.
  split; [reflexivity |]. split.
  - now intros ->.
  - intros ->.
    pose proof (filteredUsers_exactly_matching _ _ _ _ Hrows) as Hiff.
    destruct rows as [|r rows].
    + split; [| reflexivity].
      intros u Hu Hm. now apply (Hiff u).
    + split; [discriminate | exact Hiff].
Qed.

Lemma render_body_witness :
  Users.v_body
    {| Users.v_body := Users.Roster [alice]; Users.v_prompt := false |} =
  Users.Roster [alice] /\
  (forall u, In u [alice] <->
             In u [alice; bob; ghost] /\ recordMatches asciiToLowerCase "ALI" u).
Proof.
  pose proof (render_body asciiToLowerCase
                (Users.mkState [alice; bob; ghost] false false None "ALI")
                {| Users.v_body := Users.Roster [alice];
                   Users.v_prompt := false |} eq_refl) as (_ & _ & H).
  destruct (H eq_refl) as [_ Hrows].
  split; [reflexivity | exact Hrows].
Defined.

Lemma filteredUsers_empty_term_filter
  (toLowerCase : string -> string) (users : list UserData) :
  toLowerCase "" = "" ->
  Forall wellShaped users ->
  filteredUsers toLowerCase users "" = Normal (filter hasStringField users).
Proof.
  intros Hlow Hws. apply array_filter_filter. intros u Hu.
  apply matchesQuery_empty_term; [exact Hlow |].
  rewrite Forall_forall in Hws. auto.
Qed.

(** X5.  With an empty search term, once loaded and on records whose two
    fields are each absent or a string, the component lists the records
    that have a string [email] or [displayName], and shows the "list is
    empty" text when there is none, also when the roster itself is not
    empty. *)
Theorem render_without_search
  (toLowerCase : string -> string) (s : Users.State) :
  toLowerCase "" = "" ->
  Forall wellShaped (Users.users s) ->
  Users.loading s = false ->
  Users.searchQuery s = "" ->
  Users.render toLowerCase s =
  Normal {| Users.v_body :=
              match filter hasStringField (Users.users s) with
              | [] => Users.EmptyState "Список пользователей пуст"
              | r :: rows => Users.Roster (r :: rows)
              end;
            Users.v_prompt := Users.showPasswordPrompt s |}.
Proof.
  intros Hlow Hws Hload Hq. unfold Users.render. rewrite Hq, Hload.
  rewrite (filteredUsers_empty_term_filter toLowerCase _ Hlow Hws).
  simpl. now destruct (filter hasStringField (Users.users s)).
Qed.

Lemma render_without_search_witness :
  Users.render asciiToLowerCase
    (Users.mkState [ghost] false false None "") =
  Normal {| Users.v_body := Users.EmptyState "Список пользователей пуст";
            Users.v_prompt := false |}.
Proof.
  apply (render_without_search asciiToLowerCase
           (Users.mkState [ghost] false false None "")).
  - reflexivity.
  - repeat constructor.
  - reflexivity.
  - reflexivity.
Defined.

(** ** Snapshots *)

Lemma count_app p l1 l2 : count p (l1 ++ l2) = count p l1 + count p l2.
Proof. unfold count. now rewrite filter_app, length_app. Qed.

Lemma step_feedNext w docs :
  Users.listening w = true ->
  Users.step w (Users.FeedNext docs) =
  {| Users.state :=
       Users.setLoading false (Users.setUsers (map docToUser docs) (Users.state w));
     Users.pending := Users.pending w;
     Users.log := Users.log w;
     Users.listening := true |}.
Proof.
  intros H. destruct w as [s p l li]. simpl in *. subst li.
  unfold Users.exec. simpl. now rewrite app_nil_r.
Qed.

(** X6.  While the listener is attached, a snapshot replaces the whole
    roster by its documents, one record per document and in their order,
    and ends the loading phase; the search term, the prompt, its target and
    the pending calls stay, and nothing is called.  Of two snapshots in a
    row only the second is left. *)
Theorem feedNext_replaces_roster (w : Users.World) (d1 d2 : list Doc) :
  Users.listening w = true ->
  let w' := Users.step w (Users.FeedNext d2) in
  Users.users (Users.state w') = map docToUser d2 /\
  List.length (Users.users (Users.state w')) = List.length d2 /\
  Users.loading (Users.state w') = false /\
  Users.searchQuery (Users.state w') = Users.searchQuery (Users.state w) /\
  Users.showPasswordPrompt (Users.state w') =
    Users.showPasswordPrompt (Users.state w) /\
  Users.selectedUser (Users.state w') = Users.selectedUser (Users.state w) /\
  Users.pending w' = Users.pending w /\
  Users.log w' = Users.log w /\
  Users.run w [Users.FeedNext d1; Users.FeedNext d2] = w'.
Proof.
  intros H w'. subst w'.
  assert (Hrun : Users.run w [Users.FeedNext d1; Users.FeedNext d2] =
                 Users.step w (Users.FeedNext d2)).
  { rewrite !run_cons. change (Users.run ?x []) with x.
    rewrite (step_feedNext w d1 H), (step_feedNext w d2 H).
    now rewrite step_feedNext. }
  rewrite Hrun, (step_feedNext w d2 H). simpl.
  repeat split. apply length_map.
Qed.

Lemma feedNext_replaces_roster_witness :
  Users.users
    (Users.state
       (Users.step (Users.step Users.initialWorld Users.Mount)
          (Users.FeedNext [mkDoc "u2" None (JString "bob@example.com")
                             JUndefined false 2]))) = [bob].
Proof.
  destruct (feedNext_replaces_roster
              (Users.step Users.initialWorld Users.Mount) []
              [mkDoc "u2" None (JString "bob@example.com") JUndefined false 2]
              eq_refl) as [H _].
  exact H.
Defined.

Lemma step_detached w ev :
  Users.pendingDeletes w -> Users.listening w = false -> ev <> Users.Mount ->
  Users.users (Users.state (Users.step w ev)) = Users.users (Users.state w) /\
  Users.loading (Users.state (Users.step w ev)) = Users.loading (Users.state w) /\
  Users.listening (Users.step w ev) = false.
Proof.
  intros Hinv Hl Hev.
  destruct ev as [| |docs| |q|user| | |i o]; simpl; try congruence; auto.
  - rewrite Hl. auto.
  - unfold Users.execAsync, Users.promptOnSuccess.
    destruct (handleDelete_cases true (Users.state w))
      as [(target & _ & Ht) | E].
    + rewrite (handleDelete_confirmed _ _ Ht). simpl. auto.
    + rewrite E. simpl. auto.
  - destruct (nth_error (Users.pending w) i) as [k|] eqn:Hk; [| auto].
    assert (k = Users.afterDeleteUser) as ->.
    { unfold Users.pendingDeletes in Hinv. rewrite Forall_forall in Hinv.
      apply Hinv. eapply nth_error_In; eauto. }
    unfold Users.exec. simpl. rewrite afterDeleteUser_run. simpl. auto.
Qed.

Lemma run_detached evs : forall w,
  Users.pendingDeletes w -> Users.listening w = false ->
  ~ In Users.Mount evs ->
  Users.users (Users.state (Users.run w evs)) = Users.users (Users.state w) /\
  Users.loading (Users.state (Users.run w evs)) = Users.loading (Users.state w) /\
  Users.listening (Users.run w evs) = false.
Proof.
  induction evs as [|ev evs IH]; intros w Hinv Hl Hno; [auto |].
  assert (Hev : ev <> Users.Mount) by (intros ->; apply Hno; now left).
  destruct (step_detached w ev Hinv Hl Hev) as (Hu & Hlo & Hli).
  rewrite run_cons.
  destruct (IH (Users.step w ev)) as (Hu' & Hlo' & Hli');
    [now apply step_pendingDeletes | exact Hli | |].
  - intros Hin. apply Hno. now right.
  - repeat split; congruence.
Qed.

(** X7.  The cleanup of the effect detaches the listener: after an unmount
    the cleanup has called the unsubscribe function once, and whatever
    happens next short of a new mount, snapshots included, the roster and
    the loading flag stay as they were. *)
Theorem unmount_freezes_roster (w : Users.World) (evs : list Users.event) :
  Users.reachable w ->
  ~ In Users.Mount evs ->
  let w' := Users.step w Users.Unmount in
  Users.log w' = Users.log w ++ [Unsubscribe] /\
  Users.state w' = Users.state w /\
  Users.users (Users.state (Users.run w' evs)) = Users.users (Users.state w) /\
  Users.loading (Users.state (Users.run w' evs)) = Users.loading (Users.state w) /\
  Users.listening (Users.run w' evs) = false.
Proof.
  intros Hreach Hno w'. subst w'.
  split; [reflexivity |]. split; [reflexivity |].
  apply (run_detached evs (Users.step w Users.Unmount)).
  - apply step_pendingDeletes. now apply reachable_pendingDeletes.
  - reflexivity.
  - exact Hno.
Qed.

Lemma unmount_freezes_roster_witness :
  Users.users
    (Users.state
       (Users.run
          (Users.step (Users.step Users.initialWorld Users.Mount) Users.Unmount)
          [Users.FeedNext [mkDoc "u2" None (JString "bob@example.com")
                             JUndefined false 2];
           Users.ChangeSearch "b"])) = [].
Proof.
  destruct (unmount_freezes_roster
              (Users.step Users.initialWorld Users.Mount)
              [Users.FeedNext [mkDoc "u2" None (JString "bob@example.com")
                                 JUndefined false 2];
               Users.ChangeSearch "b"]) as (_ & _ & H & _).
  - constructor. constructor.
  - intros [H | [H | []]]; discriminate.
  - exact H.
Defined.

(** ** Invariants of the delete controller *)

(** How one event changes the prompt, its target, the log and the pending
    calls, in a world whose pending calls are those of [handleDelete]. *)
Lemma step_shape w ev :
  Users.pendingDeletes w ->
  let w' := Users.step w ev in
  match ev with
  | Users.ClickDelete user =>
      Users.selectedUser (Users.state w') = Some user /\
      Users.showPasswordPrompt (Users.state w') = true /\
      Users.log w' = Users.log w /\ Users.pending w' = Users.pending w
  | Users.PromptClose =>
      Users.selectedUser (Users.state w') = None /\
      Users.showPasswordPrompt (Users.state w') = false /\
      Users.log w' = Users.log w /\ Users.pending w' = Users.pending w
  | Users.PromptSuccess =>
      match Users.selectedUser (Users.state w) with
      | Some target =>
          Users.state w' = Users.state w /\
          Users.log w' = Users.log w ++ [DeleteUser (uid target)] /\
          Users.pending w' = Users.pending w ++ [Users.afterDeleteUser]
      | None =>
          Users.selectedUser (Users.state w') = None /\
          Users.showPasswordPrompt (Users.state w') = false /\
          Users.log w' = Users.log w /\ Users.pending w' = Users.pending w
      end
  | Users.Settle i o =>
      match nth_error (Users.pending w) i with
      | Some _ =>
          Users.selectedUser (Users.state w') = None /\
          Users.showPasswordPrompt (Users.state w') = false /\
          Users.pending w' = Users.removeNth i (Users.pending w) /\
          exists n, isNotification n = true /\ isDeleteUser n = false /\
                    Users.log w' = Users.log w ++ [n]
      | None => w' = w
      end
  | Users.Mount | Users.Unmount =>
      Users.state w' = Users.state w /\ Users.pending w' = Users.pending w /\
      exists e, isNotification e = false /\ isDeleteUser e = false /\
                Users.log w' = Users.log w ++ [e]
  | _ =>
      Users.selectedUser (Users.state w') = Users.selectedUser (Users.state w) /\
      Users.showPasswordPrompt (Users.state w') =
        Users.showPasswordPrompt (Users.state w) /\
      Users.log w' = Users.log w /\ Users.pending w' = Users.pending w
  end.
Proof.
  intros Hinv w'. subst w'.
  destruct ev as [| |docs| |q|user| | |i o]; simpl.
  - repeat split. exists Subscribe. auto.
  - repeat split. exists Unsubscribe. auto.
  - destruct (Users.listening w); [| auto].
    unfold Users.exec. simpl. rewrite app_nil_r. auto.
  - auto.
  - unfold Users.exec. simpl. rewrite app_nil_r. auto.
  - unfold Users.exec. simpl. rewrite app_nil_r. auto.
  - unfold Users.exec. simpl. rewrite app_nil_r. auto.
  - unfold Users.execAsync, Users.promptOnSuccess.
    destruct (Users.selectedUser (Users.state w)) as [target|] eqn:Ht.
    + rewrite (handleDelete_confirmed _ _ Ht). simpl. auto.
    + rewrite (handleDelete_no_target true _ Ht). simpl.
      rewrite app_nil_r. auto.
  - destruct (nth_error (Users.pending w) i) as [k|] eqn:Hk; [| reflexivity].
    assert (k = Users.afterDeleteUser) as ->.
    { unfold Users.pendingDeletes in Hinv. rewrite Forall_forall in Hinv.
      apply Hinv. eapply nth_error_In; eauto. }
    unfold Users.exec. simpl. rewrite afterDeleteUser_run. simpl.
    repeat split. destruct o; eexists; repeat split; reflexivity.
Qed.

(** X8.  In every reachable world the prompt is open exactly when a target
    is selected. *)
Theorem prompt_open_iff_target (w : Users.World) :
  Users.reachable w ->
  Users.showPasswordPrompt (Users.state w) =
  Users.isSome (Users.selectedUser (Users.state w)).
Proof.
  induction 1 as [|w ev Hreach IH]; [reflexivity |].
  pose proof (step_shape w ev (reachable_pendingDeletes w Hreach)) as H.
  cbv zeta in H.
  destruct ev as [| |docs| |q|user| | |i o].
  - destruct H as (-> & _). exact IH.
  - destruct H as (-> & _). exact IH.
  - destruct H as (-> & -> & _). exact IH.
  - destruct H as (-> & -> & _). exact IH.
  - destruct H as (-> & -> & _). exact IH.
  - destruct H as (-> & -> & _). reflexivity.
  - destruct H as (-> & -> & _). reflexivity.
  - destruct (Users.selectedUser (Users.state w)) as [target|] eqn:Ht.
    + destruct H as (-> & _). now rewrite Ht.
    + destruct H as (-> & -> & _). reflexivity.
  - destruct (nth_error (Users.pending w) i).
    + destruct H as (-> & -> & _). reflexivity.
    + now rewrite H.
Qed.

Lemma prompt_open_iff_target_witness :
  Users.showPasswordPrompt
    (Users.state (Users.run Users.initialWorld
                    [Users.Mount; Users.ClickDelete alice])) =
  Users.isSome
    (Users.selectedUser
       (Users.state (Users.run Users.initialWorld
                       [Users.Mount; Users.ClickDelete alice]))).
Proof.
  apply prompt_open_iff_target. apply run_reachable. constructor.
Defined.

Lemma removeNth_length {A} (l : list A) : forall i x,
  nth_error l i = Some x ->
  S (List.length (Users.removeNth i l)) = List.length l.
Proof.
  induction l as [|y l IH]; intros i x H; [destruct i; discriminate |].
  destruct i as [|j]; simpl in *; [reflexivity |].
  f_equal. eapply IH; eauto.
Qed.

Lemma count_one p e : count p [e] = if p e then 1 else 0.
Proof. unfold count. simpl. now destruct (p e). Qed.

(** X9.  In every reachable world each [deleteUser] call is either still
    pending or has been answered by exactly one notification: the calls
    made equal the notifications shown plus the calls in flight. *)
Theorem deletes_are_accounted (w : Users.World) :
  Users.reachable w ->
  count isDeleteUser (Users.log w) =
  count isNotification (Users.log w) + List.length (Users.pending w).
Proof.
  induction 1 as [|w ev Hreach IH]; [reflexivity |].
  pose proof (step_shape w ev (reachable_pendingDeletes w Hreach)) as H.
  cbv zeta in H.
  destruct ev as [| |docs| |q|user| | |i o].
  - destruct H as (_ & -> & e & Hn & Hd & ->).
    rewrite !count_app, !count_one, Hn, Hd. lia.
  - destruct H as (_ & -> & e & Hn & Hd & ->).
    rewrite !count_app, !count_one, Hn, Hd. lia.
  - destruct H as (_ & _ & -> & ->). exact IH.
  - destruct H as (_ & _ & -> & ->). exact IH.
  - destruct H as (_ & _ & -> & ->). exact IH.
  - destruct H as (_ & _ & -> & ->). exact IH.
  - destruct H as (_ & _ & -> & ->). exact IH.
  - destruct (Users.selectedUser (Users.state w)) as [target|].
    + destruct H as (_ & -> & ->).
      rewrite !count_app, !count_one, length_app. simpl. lia.
    + destruct H as (_ & _ & -> & ->). exact IH.
  - destruct (nth_error (Users.pending w) i) as [k|] eqn:Hk.
    + destruct H as (_ & _ & -> & n & Hn & Hd & ->).
      rewrite !count_app, !count_one, Hn, Hd.
      pose proof (removeNth_length _ _ _ Hk). lia.
    + now rewrite H.
Qed.

Lemma deletes_are_accounted_witness :
  count isDeleteUser
    (Users.log (Users.run Users.initialWorld
                  [Users.Mount; Users.ClickDelete alice; Users.PromptSuccess;
                   Users.PromptSuccess; Users.Settle 1 Rejected])) =
  count isNotification
    (Users.log (Users.run Users.initialWorld
                  [Users.Mount; Users.ClickDelete alice; Users.PromptSuccess;
                   Users.PromptSuccess; Users.Settle 1 Rejected])) +
  List.length
    (Users.pending (Users.run Users.initialWorld
                      [Users.Mount; Users.ClickDelete alice; Users.PromptSuccess;
                       Users.PromptSuccess; Users.Settle 1 Rejected])).
Proof.
  apply deletes_are_accounted. apply run_reachable. constructor.
Defined.

Lemma step_delete_count w ev :
  Users.pendingDeletes w ->
  count isDeleteUser (Users.log (Users.step w ev)) <=
  count isDeleteUser (Users.log w) + (if isPromptSuccess ev then 1 else 0).
Proof.
  intros Hinv. pose proof (step_shape w ev Hinv) as H. cbv zeta in H.
  destruct ev as [| |docs| |q|user| | |i o]; cbn [isPromptSuccess].
  - destruct H as (_ & _ & e & _ & Hd & ->).
    rewrite count_app, count_one, Hd. lia.
  - destruct H as (_ & _ & e & _ & Hd & ->).
    rewrite count_app, count_one, Hd. lia.
  - destruct H as (_ & _ & -> & _). lia.
  - destruct H as (_ & _ & -> & _). lia.
  - destruct H as (_ & _ & -> & _). lia.
  - destruct H as (_ & _ & -> & _). lia.
  - destruct H as (_ & _ & -> & _). lia.
  - destruct (Users.selectedUser (Users.state w)) as [target|].
    + destruct H as (_ & -> & _). rewrite count_app, count_one. simpl. lia.
    + destruct H as (_ & _ & -> & _). lia.
  - destruct (nth_error (Users.pending w) i) as [k|].
    + destruct H as (_ & _ & _ & n & _ & Hd & ->).
      rewrite count_app, count_one, Hd. lia.
    + rewrite H. lia.
Qed.

(** X10.  Whatever the events and their order, the component calls
    [deleteUser] at most once per confirmed prompt; without a confirmed
    prompt among the events it does not call it. *)
Theorem no_delete_without_confirmation (w : Users.World) (evs : list Users.event) :
  Users.reachable w ->
  count isDeleteUser (Users.log (Users.run w evs)) <=
    count isDeleteUser (Users.log w) + List.length (filter isPromptSuccess evs) /\
  (filter isPromptSuccess evs = [] ->
   count isDeleteUser (Users.log (Users.run w evs)) =
   count isDeleteUser (Users.log w)).
Proof.
  intros Hreach. apply reachable_pendingDeletes in Hreach.
  assert (Hle : forall evs w,
             Users.pendingDeletes w ->
             count isDeleteUser (Users.log w) <=
               count isDeleteUser (Users.log (Users.run w evs)) /\
             count isDeleteUser (Users.log (Users.run w evs)) <=
               count isDeleteUser (Users.log w) +
               List.length (filter isPromptSuccess evs)).
  { clear. induction evs as [|ev evs IH]; intros w Hinv; [simpl; lia |].
    rewrite run_cons.
    destruct (IH (Users.step w ev) (step_pendingDeletes w ev Hinv)) as [H1 H2].
    pose proof (step_delete_count w ev Hinv) as H3.
    assert (H4 : count isDeleteUser (Users.log w) <=
                 count isDeleteUser (Users.log (Users.step w ev))).
    { pose proof (step_shape w ev Hinv) as H. cbv zeta in H.
      destruct ev as [| |docs| |q|user| | |i o].
      - destruct H as (_ & _ & e & _ & _ & ->). rewrite count_app. lia.
      - destruct H as (_ & _ & e & _ & _ & ->). rewrite count_app. lia.
      - destruct H as (_ & _ & -> & _). lia.
      - destruct H as (_ & _ & -> & _). lia.
      - destruct H as (_ & _ & -> & _). lia.
      - destruct H as (_ & _ & -> & _). lia.
      - destruct H as (_ & _ & -> & _). lia.
      - destruct (Users.selectedUser (Users.state w)) as [target|].
        + destruct H as (_ & -> & _). rewrite count_app. lia.
        + destruct H as (_ & _ & -> & _). lia.
      - destruct (nth_error (Users.pending w) i) as [k|].
        + destruct H as (_ & _ & _ & n & _ & _ & ->). rewrite count_app. lia.
        + rewrite H. lia. }
    simpl filter. destruct (isPromptSuccess ev); simpl in *; lia. }
  destruct (Hle evs w Hreach) as [H1 H2].
  split; [exact H2 |].
  intros Hnone. rewrite Hnone in H2. simpl in H2. lia.
Qed.

Lemma no_delete_without_confirmation_witness :
  count isDeleteUser
    (Users.log (Users.run (Users.step Users.initialWorld Users.Mount)
                  [Users.ClickDelete alice; Users.PromptClose;
                   Users.ClickDelete bob; Users.Settle 0 Fulfilled])) =
  count isDeleteUser (Users.log (Users.step Users.initialWorld Users.Mount)).
Proof.
  destruct (no_delete_without_confirmation
              (Users.step Users.initialWorld Users.Mount)
              [Users.ClickDelete alice; Users.PromptClose;
               Users.ClickDelete bob; Users.Settle 0 Fulfilled]) as [_ H].
  - constructor. constructor.
  - apply H. reflexivity.
Defined.

Lemma clicked_app evs1 evs2 : clicked (evs1 ++ evs2) = clicked evs1 ++ clicked evs2.
Proof.
  induction evs1 as [|ev evs1 IH]; [reflexivity |].
  destruct ev; simpl; now rewrite ?IH.
Qed.

Lemma targets_clicked_step (C : list UserData) w ev :
  Users.pendingDeletes w ->
  (forall t, Users.selectedUser (Users.state w) = Some t -> In t C) ->
  (forall u, In (DeleteUser u) (Users.log w) -> exists t, In t C /\ uid t = u) ->
  (forall t, Users.selectedUser (Users.state (Users.step w ev)) = Some t ->
             In t (C ++ clicked [ev])) /\
  (forall u, In (DeleteUser u) (Users.log (Users.step w ev)) ->
             exists t, In t (C ++ clicked [ev]) /\ uid t = u).
Proof.
  intros Hinv Hsel Hlog.
  assert (Hlog' : forall u, In (DeleteUser u) (Users.log w) ->
                            exists t, In t (C ++ clicked [ev]) /\ uid t = u).
  { intros u Hu. destruct (Hlog u Hu) as (t & Ht & E).
    exists t. split; [apply in_or_app; now left | exact E]. }
  assert (Hsel' : forall t, Users.selectedUser (Users.state w) = Some t ->
                            In t (C ++ clicked [ev])).
  { intros t Ht. apply in_or_app. left. auto. }
  pose proof (step_shape w ev Hinv) as H. cbv zeta in H.
  destruct ev as [| |docs| |q|user| | |i o].
  - destruct H as (-> & _ & e & _ & Hd & ->). split; [exact Hsel' |].
    intros u Hu. apply in_app_or in Hu as [Hu | [He | []]]; [auto | subst; discriminate].
  - destruct H as (-> & _ & e & _ & Hd & ->). split; [exact Hsel' |].
    intros u Hu. apply in_app_or in Hu as [Hu | [He | []]]; [auto | subst; discriminate].
  - destruct H as (-> & _ & -> & _). auto.
  - destruct H as (-> & _ & -> & _). auto.
  - destruct H as (-> & _ & -> & _). auto.
  - destruct H as (-> & _ & -> & _). split; [| exact Hlog'].
    intros t [= <-]. apply in_or_app. right. now left.
  - destruct H as (-> & _ & -> & _). split; [discriminate | exact Hlog'].
  - destruct (Users.selectedUser (Users.state w)) as [target|] eqn:Ht.
    + destruct H as (-> & -> & _).
      split; [intros t Et; apply Hsel'; congruence |].
      intros u Hu. apply in_app_or in Hu as [Hu | [[= <-] | []]]; [auto |].
      exists target. split; [apply Hsel'; reflexivity | reflexivity].
    + destruct H as (-> & _ & -> & _). split; [discriminate | exact Hlog'].
  - destruct (nth_error (Users.pending w) i) as [k|].
    + destruct H as (-> & _ & _ & n & _ & Hd & ->). split; [discriminate |].
      intros u Hu. apply in_app_or in Hu as [Hu | [He | []]]; [auto | subst; discriminate].
    + rewrite H. auto.
Qed.

Lemma targets_clicked_run evs : forall (C : list UserData) w,
  Users.pendingDeletes w ->
  (forall t, Users.selectedUser (Users.state w) = Some t -> In t C) ->
  (forall u, In (DeleteUser u) (Users.log w) -> exists t, In t C /\ uid t = u) ->
  forall u, In (DeleteUser u) (Users.log (Users.run w evs)) ->
            exists t, In t (C ++ clicked evs) /\ uid t = u.
Proof.
  induction evs as [|ev evs IH]; intros C w Hinv Hsel Hlog u Hu.
  - simpl in Hu. rewrite app_nil_r. auto.
  - rewrite run_cons in Hu.
    destruct (targets_clicked_step C w ev Hinv Hsel Hlog) as [Hsel' Hlog'].
    destruct (IH (C ++ clicked [ev]) (Users.step w ev)
                (step_pendingDeletes w ev Hinv) Hsel' Hlog' u Hu)
      as (t & Ht & E).
    exists t. split; [| exact E].
    rewrite <- app_assoc, <- clicked_app in Ht. exact Ht.
Qed.

(** X11.  Every [deleteUser(uid)] the component makes after its creation is
    for the [uid] of a record whose delete button was clicked before. *)
Theorem delete_targets_were_clicked (evs : list Users.event) (u : string) :
  In (DeleteUser u) (Users.log (Users.run Users.initialWorld evs)) ->
  exists user, In user (clicked evs) /\ uid user = u.
Proof.
  intros H.
  apply (targets_clicked_run evs [] Users.initialWorld); try exact H.
  - constructor.
  - discriminate.
  - intros u' [].
Qed.

Lemma delete_targets_were_clicked_witness :
  exists user,
    In user (clicked [Users.Mount; Users.ClickDelete alice; Users.ClickDelete bob;
                      Users.PromptSuccess]) /\
    uid user = "u2".
Proof.
  apply (delete_targets_were_clicked
           [Users.Mount; Users.ClickDelete alice; Users.ClickDelete bob;
            Users.PromptSuccess] "u2").
  simpl. auto.
Defined.

Lemma run_app w evs1 evs2 :
  Users.run w (evs1 ++ evs2) = Users.run (Users.run w evs1) evs2.
Proof. apply fold_left_app. Qed.

Lemma run_passive evs : forall w,
  forallb passive evs = true ->
  Users.selectedUser (Users.state (Users.run w evs)) =
    Users.selectedUser (Users.state w) /\
  Users.showPasswordPrompt (Users.state (Users.run w evs)) =
    Users.showPasswordPrompt (Users.state w) /\
  Users.pending (Users.run w evs) = Users.pending w.
Proof.
  induction evs as [|ev evs IH]; intros w H; [auto |].
  simpl in H. apply andb_true_iff in H as [Hev Hevs].
  rewrite run_cons. destruct (IH (Users.step w ev) Hevs) as (-> & -> & ->).
  destruct ev as [| |docs| |q|user| | |i o]; try discriminate; simpl; auto.
  - destruct (Users.listening w); auto.
Qed.

(** X12.  The target of a delete is the record captured by the click.
    Snapshots, searches, a failing subscription and (un)mounting between the
    click and the confirmation do not change it: the confirmation calls
    [deleteUser] with the [uid] of the clicked record, also when a snapshot
    has removed that record from the roster meanwhile. *)
Theorem delete_target_is_captured
  (w : Users.World) (U : UserData) (evs : list Users.event) :
  forallb passive evs = true ->
  let w1 := Users.run w (Users.ClickDelete U :: evs) in
  let w2 := Users.run w (Users.ClickDelete U :: evs ++ [Users.PromptSuccess]) in
  Users.selectedUser (Users.state w1) = Some U /\
  Users.showPasswordPrompt (Users.state w1) = true /\
  Users.log w2 = Users.log w1 ++ [DeleteUser (uid U)] /\
  Users.pending w2 = Users.pending w ++ [Users.afterDeleteUser] /\
  Users.state w2 = Users.state w1.
Proof.
  intros Hp w1 w2. subst w1 w2.
  rewrite app_comm_cons, run_app. rewrite run_cons.
  destruct (run_passive evs (Users.step w (Users.ClickDelete U)) Hp)
    as (Hsel & Hshow & Hpend).
  set (w1 := Users.run (Users.step w (Users.ClickDelete U)) evs) in *.
  assert (Hsel1 : Users.selectedUser (Users.state w1) = Some U)
    by (rewrite Hsel; reflexivity).
  split; [exact Hsel1 |]. split; [rewrite Hshow; reflexivity |].
  change (Users.run w1 [Users.PromptSuccess])
    with (Users.execAsync (Users.handleDelete true) w1).
  unfold Users.execAsync. rewrite (handleDelete_confirmed _ _ Hsel1). simpl.
  repeat split. rewrite Hpend. unfold Users.exec. simpl. reflexivity.
Qed.

Lemma delete_target_is_captured_witness :
  Users.log
    (Users.run (Users.step Users.initialWorld Users.Mount)
       (Users.ClickDelete alice ::
        [Users.FeedNext []; Users.ChangeSearch "x"] ++ [Users.PromptSuccess])) =
  Users.log
    (Users.run (Users.step Users.initialWorld Users.Mount)
       (Users.ClickDelete alice :: [Users.FeedNext []; Users.ChangeSearch "x"])) ++
  [DeleteUser "u1"].
Proof.
  destruct (delete_target_is_captured
              (Users.step Users.initialWorld Users.Mount) alice
              [Users.FeedNext []; Users.ChangeSearch "x"] eq_refl)
    as (_ & _ & H & _).
  exact H.
Defined.

(** ** Overlapping deletes *)

(** X13.  While a delete is in flight the prompt stays open with its
    target: [handleDelete(true)] changes no state before the call settles,
    so a second confirmation calls [deleteUser] for the same [uid] again and
    two calls are pending. *)
Theorem confirm_twice_deletes_twice (w : Users.World) (U : UserData) :
  Users.selectedUser (Users.state w) = Some U ->
  let w1 := Users.step w Users.PromptSuccess in
  let w2 := Users.run w [Users.PromptSuccess; Users.PromptSuccess] in
  Users.state w1 = Users.state w /\
  Users.state w2 = Users.state w /\
  Users.log w2 = Users.log w ++ [DeleteUser (uid U); DeleteUser (uid U)] /\
  Users.pending w2 =
    Users.pending w ++ [Users.afterDeleteUser; Users.afterDeleteUser].
Proof.
  intros H w1 w2. subst w1 w2.
  destruct w as [s p l li]. simpl in H.
  unfold Users.run. simpl. unfold Users.execAsync, Users.promptOnSuccess. simpl.
  rewrite (handleDelete_confirmed s U H). simpl.
  rewrite (handleDelete_confirmed s U H). simpl.
  rewrite <- !app_assoc. simpl. auto.
Qed.

Lemma confirm_twice_deletes_twice_witness :
  Users.log
    (Users.run (Users.step Users.initialWorld (Users.ClickDelete bob))
       [Users.PromptSuccess; Users.PromptSuccess]) =
  [DeleteUser "u2"; DeleteUser "u2"].
Proof.
  destruct (confirm_twice_deletes_twice
              (Users.step Users.initialWorld (Users.ClickDelete bob)) bob eq_refl)
    as (_ & _ & H & _).
  exact H.
Defined.



(** ** The Profile forms *)

(** X15.  A profile update makes one backend call, with the display name
    the form held on submit, and shows one notification, chosen by the
    outcome; the text fields are as they were when the call settled, and
    [loading] is false. *)
Theorem handleUpdateProfile_attempt
  (o : settled) (between : Profile.State -> Profile.State) (s : Profile.State) :
  let r := attempt Profile.handleUpdateProfile o between s in
  let s1 := between (Profile.setLoading true s) in
  snd r =
    [PreventDefault; UpdateUserProfile (Profile.displayName s);
     match o with
     | Fulfilled => ShowSuccessNotification "Профиль успешно обновлен"
     | Rejected => ShowErrorNotification "Ошибка при обновлении профиля"
     end] /\
  count isBackendCall (snd r) = 1 /\
  count isNotification (snd r) = 1 /\
  fst r = Profile.setLoading false s1 /\
  (Profile.loading s = false -> attempt Profile.handleUpdateProfile o (fun x => x) s
                                = (s, snd r)).
Proof.
  intros r s1. subst r s1.
  rewrite (attempt_awaiting Profile.handleUpdateProfile
             Profile.afterUpdateUserProfile (Profile.setLoading true s)
             [PreventDefault; UpdateUserProfile (Profile.displayName s)]
             o between s eq_refl).
  rewrite (attempt_awaiting Profile.handleUpdateProfile
             Profile.afterUpdateUserProfile (Profile.setLoading true s)
             [PreventDefault; UpdateUserProfile (Profile.displayName s)]
             o (fun x => x) s eq_refl).
  destruct o; simpl; repeat split;
    intros H; destruct s; simpl in *; subst; reflexivity.
Qed.

Lemma handleUpdateProfile_attempt_witness :
  attempt Profile.handleUpdateProfile Rejected (fun x => x)
    (Profile.mkState "Alice" "" "" "" false) =
  (Profile.mkState "Alice" "" "" "" false,
   [PreventDefault; UpdateUserProfile "Alice";
    ShowErrorNotification "Ошибка при обновлении профиля"]).
Proof.
  destruct (handleUpdateProfile_attempt Rejected (fun x => x)
              (Profile.mkState "Alice" "" "" "" false)) as (_ & _ & _ & _ & H).
  apply H. reflexivity.
Defined.

(** X16.  A password change whose two new values agree makes one backend
    call, with the current and the new password, and shows one notification.
    When the call is fulfilled the three password fields are emptied; when
    it is rejected they keep what they held, so the user can retry.  The
    display name is not touched and [loading] ends false. *)
Theorem handleUpdatePassword_attempt
  (o : settled) (between : Profile.State -> Profile.State) (s : Profile.State) :
  Profile.newPassword s = Profile.confirmPassword s ->
  let r := attempt Profile.handleUpdatePassword o between s in
  let s1 := between (Profile.setLoading true s) in
  snd r =
    [PreventDefault;
     UpdateUserPassword (Profile.currentPassword s) (Profile.newPassword s);
     match o with
     | Fulfilled => ShowSuccessNotification "Пароль успешно изменен"
     | Rejected => ShowErrorNotification "Ошибка при изменении пароля"
     end] /\
  count isBackendCall (snd r) = 1 /\
  count isNotification (snd r) = 1 /\
  Profile.displayName (fst r) = Profile.displayName s1 /\
  Profile.loading (fst r) = false /\
  match o with
  | Fulfilled =>
      Profile.currentPassword (fst r) = "" /\
      Profile.newPassword (fst r) = "" /\
      Profile.confirmPassword (fst r) = ""
  | Rejected =>
      Profile.currentPassword (fst r) = Profile.currentPassword s1 /\
      Profile.newPassword (fst r) = Profile.newPassword s1 /\
      Profile.confirmPassword (fst r) = Profile.confirmPassword s1
  end.
Proof.
  intros H r s1. subst r s1.
  rewrite (attempt_awaiting _ _ _ _ o between s (handleUpdatePassword_same s H)).
  destruct o; simpl; repeat split.
Qed.

Lemma handleUpdatePassword_attempt_witness :
  snd (attempt Profile.handleUpdatePassword Rejected (fun x => x)
         (Profile.mkState "Alice" "old" "new" "new" false)) =
  [PreventDefault; UpdateUserPassword "old" "new";
   ShowErrorNotification "Ошибка при изменении пароля"].
Proof.
  destruct (handleUpdatePassword_attempt Rejected (fun x => x)
              (Profile.mkState "Alice" "old" "new" "new" false) eq_refl)
    as (H & _).
  exact H.
Defined.

Lemma isEmpty_false (s : string) : Profile.isEmpty s = false -> s <> "".
Proof. destruct s; [discriminate | discriminate]. Qed.

Lemma passwordFormValid_nonEmpty (s : Profile.State) :
  Profile.passwordFormValid s = true ->
  Profile.currentPassword s <> "" /\ Profile.newPassword s <> "".
Proof.
  unfold Profile.passwordFormValid. rewrite !andb_true_iff, !negb_true_iff.
  intros [[H1 H2] _]. split; now apply isEmpty_false.
Qed.

Lemma profile_step_invariant w ev :
  Profile.serialized w /\ Forall passwordCallsNonEmpty (Profile.log w) ->
  Profile.serialized (Profile.step w ev) /\
  Forall passwordCallsNonEmpty (Profile.log (Profile.step w ev)).
Proof.
  intros [Hser Hlog]. unfold Profile.serialized in *.
  destruct ev as [v|v|v|v| | |i o]; simpl.
  - unfold Profile.exec. simpl. rewrite app_nil_r. auto.
  - unfold Profile.exec. simpl. rewrite app_nil_r. auto.
  - unfold Profile.exec. simpl. rewrite app_nil_r. auto.
  - unfold Profile.exec. simpl. rewrite app_nil_r. auto.
  - destruct Hser as [[Hl Hp] | [Hl Hp]]; rewrite Hl; [| auto].
    unfold Profile.execAsync. simpl. rewrite Hp. split.
    + right. auto.
    + apply Forall_app. split; [exact Hlog |]. repeat constructor.
  - destruct Hser as [[Hl Hp] | [Hl Hp]]; rewrite Hl; simpl; [| auto].
    destruct (Profile.passwordFormValid (Profile.state w)) eqn:Hv; simpl;
      [| auto].
    unfold Profile.execAsync.
    destruct (string_dec (Profile.newPassword (Profile.state w))
                (Profile.confirmPassword (Profile.state w))) as [E | E].
    + rewrite (handleUpdatePassword_same _ E), Hp. simpl. split.
      * right. auto.
      * apply Forall_app. split; [exact Hlog |].
        repeat constructor; now apply passwordFormValid_nonEmpty.
    + rewrite (handleUpdatePassword_differ _ E). simpl. split.
      * left. auto.
      * apply Forall_app. split; [exact Hlog |]. repeat constructor.
  - destruct Hser as [[Hl Hp] | [Hl [Hp | Hp]]]; rewrite Hp.
    + destruct i; simpl; rewrite Hp; auto.
    + destruct i as [|[|j]]; simpl; try (rewrite Hp; auto).
      unfold Profile.exec. destruct o; simpl; split; auto;
        apply Forall_app; split; auto; repeat constructor.
    + destruct i as [|[|j]]; simpl; try (rewrite Hp; auto).
      unfold Profile.exec. destruct o; simpl; split; auto;
        apply Forall_app; split; auto; repeat constructor.
Qed.

Lemma profile_reachable_invariant currentUser w :
  Profile.reachable currentUser w ->
  Profile.serialized w /\ Forall passwordCallsNonEmpty (Profile.log w).
Proof.
  induction 1 as [|w ev _ IH].
  - split; [left; auto | constructor].
  - now apply profile_step_invariant.
Qed.

Lemma profile_run_reachable currentUser evs : forall w,
  Profile.reachable currentUser w ->
  Profile.reachable currentUser (Profile.run w evs).
Proof.
  induction evs as [|ev evs IH]; intros w H; [exact H |].
  apply IH. now constructor.
Qed.

(** X17.  The two forms share [loading] and their submit buttons are
    disabled while it is set, so the Profile component has at most one
    backend call in flight, and [loading] (the disabled buttons) is on
    exactly while one is. *)
Theorem profile_calls_are_serialized
  (currentUser : option Profile.User) (w : Profile.World) :
  Profile.reachable currentUser w ->
  List.length (Profile.pending w) <= 1 /\
  (Profile.loading (Profile.state w) = true <-> Profile.pending w <> []) /\
  Profile.v_submitDisabled (Profile.render currentUser (Profile.state w)) =
    negb (Nat.eqb (List.length (Profile.pending w)) 0).
Proof.
  intros H. apply profile_reachable_invariant in H as [Hser _].
  destruct Hser as [[Hl Hp] | [Hl [Hp | Hp]]]; simpl; rewrite Hl, Hp; simpl;
    repeat split; auto; try discriminate; try congruence.
Qed.

Lemma profile_calls_are_serialized_witness :
  List.length
    (Profile.pending
       (Profile.run (Profile.initialWorld None)
          [Profile.ChangeDisplayName "Al"; Profile.SubmitProfile;
           Profile.SubmitProfile; Profile.ChangeNewPassword "x";
           Profile.SubmitPassword])) <= 1.
Proof.
  destruct (profile_calls_are_serialized None
              (Profile.run (Profile.initialWorld None)
                 [Profile.ChangeDisplayName "Al"; Profile.SubmitProfile;
                  Profile.SubmitProfile; Profile.ChangeNewPassword "x";
                  Profile.SubmitPassword])) as [H _].
  - apply profile_run_reachable. constructor.
  - exact H.
Defined.

(** X18.  The password inputs are required and the handler sends what they
    hold: the Profile component never calls [updateUserPassword] with an
    empty current or new password. *)
Theorem profile_passwords_not_empty
  (currentUser : option Profile.User) (w : Profile.World)
  (currentPassword newPassword : string) :
  Profile.reachable currentUser w ->
  In (UpdateUserPassword currentPassword newPassword) (Profile.log w) ->
  currentPassword <> "" /\ newPassword <> "".
Proof.
  intros H Hin. apply profile_reachable_invariant in H as [_ Hlog].
  rewrite Forall_forall in Hlog. exact (Hlog _ Hin).
Qed.

Lemma profile_passwords_not_empty_witness : "old" <> "" /\ "new" <> "".
Proof.
  apply (profile_passwords_not_empty None
           (Profile.run (Profile.initialWorld None)
              [Profile.ChangeCurrentPassword "old";
               Profile.ChangeNewPassword "new";
               Profile.ChangeConfirmPassword "new";
               Profile.SubmitPassword])).
  - apply profile_run_reachable. constructor.
  - simpl. auto.
Defined.

(** ** Case of the search term, identity of a record *)

(** X19.  The search ignores the case of the term: two terms with the same
    lower-case form give the same result on every roster, the same
    exception included. *)
Theorem filteredUsers_term_case
  (toLowerCase : string -> string) (users : list UserData) (t t' : string) :
  toLowerCase t = toLowerCase t' ->
  filteredUsers toLowerCase users t = filteredUsers toLowerCase users t'.
Proof.
  intros H. unfold filteredUsers.
  induction users as [|u rest IH]; [reflexivity |].
  simpl. rewrite IH.
  assert (E : matchesQuery toLowerCase t u = matchesQuery toLowerCase t' u).
  { unfold matchesQuery, lowerIncludes. now rewrite H. }
  now rewrite E.
Qed.

Lemma filteredUsers_term_case_witness :
  filteredUsers asciiToLowerCase [alice; bob; ghost] "ALICE" =
  filteredUsers asciiToLowerCase [alice; bob; ghost] "alice".
Proof.
  apply filteredUsers_term_case. reflexivity.
Defined.

(** X20.  The record made from a document takes its [uid] from the
    document's own data when the data has a [uid], and from the document id
    otherwise; this is the [uid] that a confirmed delete of the n-th row of
    a snapshot sends to [deleteUser]. *)
Theorem delete_sends_record_uid
  (w : Users.World) (docs : list Doc) (n : nat) (d : Doc) :
  Users.listening w = true ->
  nth_error docs n = Some d ->
  let w1 := Users.step w (Users.FeedNext docs) in
  let w3 := Users.run w1 [Users.ClickDelete (docToUser d); Users.PromptSuccess] in
  nth_error (Users.users (Users.state w1)) n = Some (docToUser d) /\
  Users.log w3 =
    Users.log w ++
    [DeleteUser match d_uid d with
                | Some u => u
                | None => d_id d
                end].
Proof.
  intros Hl Hn w1 w3. subst w3 w1.
  rewrite (step_feedNext w docs Hl). split.
  - simpl. now apply map_nth_error.
  - unfold Users.run. simpl. unfold Users.exec, Users.execAsync. simpl.
    now rewrite app_nil_r.
Qed.

Lemma delete_sends_record_uid_witness :
  Users.log
    (Users.run
       (Users.step (Users.step Users.initialWorld Users.Mount)
          (Users.FeedNext [mkDoc "doc7" (Some "u7") JUndefined JUndefined false 0]))
       [Users.ClickDelete
          (docToUser (mkDoc "doc7" (Some "u7") JUndefined JUndefined false 0));
        Users.PromptSuccess]) =
  [Subscribe; DeleteUser "u7"].
Proof.
  destruct (delete_sends_record_uid
              (Users.step Users.initialWorld Users.Mount)
              [mkDoc "doc7" (Some "u7") JUndefined JUndefined false 0] 0
              (mkDoc "doc7" (Some "u7") JUndefined JUndefined false 0)
              eq_refl eq_refl) as [_ H].
  exact H.
Defined.
